(** * The space time dataset class of the temporal GIS library

    A shallow embedding of [abstract_space_time_dataset]
    (lib/python/temporal/abstract_space_time_dataset.py): registration of maps
    in a space time dataset, the update of the temporal extent from the
    registered maps, the temporal relation matrix and the deletion of a
    dataset.

    The methods act on a temporal database through a database interface
    ([dbif]).  The embedding threads a [world] through every method: the
    tables of the database, the fields of the object the method is called on
    ([self]), the connections that were opened, and the messages printed. *)

From stdpp Require Import base strings gmap list sorting.
From Stdlib Require Import ZArith Ascii.

Local Open Scope Z_scope.

(** ** Values *)

(** The temporal type of a dataset, as [get_temporal_type] returns it. *)
Inductive temporal_type := absolute | relative.

(** The map time of a dataset: the strings "point", "interval", "mixed". *)
Inductive map_time := point | interval | mixed.

(** The database back end module [dbmi]. *)
Inductive dbmi_module := sqlite3 | psycopg2.

(** The exceptions that leave a method.  [SystemExit] is what [core.fatal]
    ends with; [DatabaseError] is any error of the back end. *)
Inductive exn :=
  TypeError | AttributeError | IndexError | ValueError | DatabaseError | SystemExit.

#[global] Instance temporal_type_eq_dec : EqDecision temporal_type.
Proof. solve_decision. Defined.
#[global] Instance map_time_eq_dec : EqDecision map_time.
Proof. solve_decision. Defined.
#[global] Instance exn_eq_dec : EqDecision exn.
Proof. solve_decision. Defined.

(** A cell of a result row: SQL NULL, a text, or a time.  A time is a number:
    an absolute time is a time stamp, counted in microseconds, the resolution
    of datetime; a relative time is the number itself. *)
Inductive cell := NULL | Text (s : string) | Time (t : Z).

(** [t.microsecond] of a time stamp: the fraction of a second. *)
Definition microsecond (t : Z) : Z := t mod 1000000.

#[global] Instance cell_eq_dec : EqDecision cell.
Proof. solve_decision. Defined.

Definition row := list cell.

(** The row of a map in the temporal database: base, temporal extent and the
    name of the table in which the map keeps the datasets it is registered in
    ([get_stds_register], None until the first registration). *)
Record map_row := {
  map_name : string;
  map_mapset : string;
  map_stds_register : option string;
  map_start_time : Z;
  map_end_time : option Z
}.

(** The fields of a space time dataset, in the database and in the object:
    base (id, name, mapset, temporal type), metadata (map register, number of
    maps) and temporal extent (start time, end time, map time).  [reset]
    leaves every field but the id at None. *)
Record stds := {
  s_id : option string;
  s_name : option string;
  s_mapset : option string;
  s_ttype : option temporal_type;
  s_map_register : option string;
  s_number_of_maps : option nat;
  s_start_time : option Z;
  s_end_time : option Z;
  s_map_time : option map_time
}.

(** [self.reset(ident)] *)
Definition reset (ident : option string) : stds :=
  {| s_id := ident; s_name := None; s_mapset := None; s_ttype := None;
     s_map_register := None; s_number_of_maps := None;
     s_start_time := None; s_end_time := None; s_map_time := None |}.

Inductive level := verbose | warning | error.

(** ** The world *)

Record world := {
  (** the register tables, by name: the ids each one holds *)
  registers : gmap string (list string);
  (** the maps of the temporal database, by id *)
  map_rows : gmap string map_row;
  (** the space time datasets of the temporal database, by id *)
  stds_rows : gmap string stds;
  (** the object the method is called on *)
  self : stds;
  (** the connections opened so far: true while open *)
  conns : list bool;
  (** what [core.verbose], [core.warning] and [core.error] printed *)
  messages : list (level * string);
  (** the statement at which the back end fails: [Some n] fails the
      statement after the next [n], [None] never fails *)
  fail_in : option nat;
  (** the values [uuid.uuid4()] returns, in the order of the calls *)
  uuid_draws : list string
}.

Definition set_registers (f : gmap string (list string) -> gmap string (list string)) (w : world) : world :=
  {| registers := f (registers w); map_rows := map_rows w; stds_rows := stds_rows w;
     self := self w; conns := conns w; messages := messages w;
     fail_in := fail_in w; uuid_draws := uuid_draws w |}.

Definition set_map_rows (f : gmap string map_row -> gmap string map_row) (w : world) : world :=
  {| registers := registers w; map_rows := f (map_rows w); stds_rows := stds_rows w;
     self := self w; conns := conns w; messages := messages w;
     fail_in := fail_in w; uuid_draws := uuid_draws w |}.

Definition set_stds_rows (f : gmap string stds -> gmap string stds) (w : world) : world :=
  {| registers := registers w; map_rows := map_rows w; stds_rows := f (stds_rows w);
     self := self w; conns := conns w; messages := messages w;
     fail_in := fail_in w; uuid_draws := uuid_draws w |}.

Definition set_self (f : stds -> stds) (w : world) : world :=
  {| registers := registers w; map_rows := map_rows w; stds_rows := stds_rows w;
     self := f (self w); conns := conns w; messages := messages w;
     fail_in := fail_in w; uuid_draws := uuid_draws w |}.

Definition set_conns (f : list bool -> list bool) (w : world) : world :=
  {| registers := registers w; map_rows := map_rows w; stds_rows := stds_rows w;
     self := self w; conns := f (conns w); messages := messages w;
     fail_in := fail_in w; uuid_draws := uuid_draws w |}.

Definition set_messages (f : list (level * string) -> list (level * string)) (w : world) : world :=
  {| registers := registers w; map_rows := map_rows w; stds_rows := stds_rows w;
     self := self w; conns := conns w; messages := f (messages w);
     fail_in := fail_in w; uuid_draws := uuid_draws w |}.

Definition set_fail_in (f : option nat -> option nat) (w : world) : world :=
  {| registers := registers w; map_rows := map_rows w; stds_rows := stds_rows w;
     self := self w; conns := conns w; messages := messages w;
     fail_in := f (fail_in w); uuid_draws := uuid_draws w |}.

Definition set_uuid_draws (f : list string -> list string) (w : world) : world :=
  {| registers := registers w; map_rows := map_rows w; stds_rows := stds_rows w;
     self := self w; conns := conns w; messages := messages w;
     fail_in := fail_in w; uuid_draws := f (uuid_draws w) |}.

(** ** Methods as state transformers that may raise *)

Inductive outcome (A : Type) := Return (a : A) | Raise (e : exn).
Arguments Return {A} a.
Arguments Raise {A} e.

Definition M (A : Type) : Type := world -> outcome A * world.

Definition ret {A} (a : A) : M A := fun w => (Return a, w).

Definition raise {A} (e : exn) : M A := fun w => (Raise e, w).

Definition bind {A B} (m : M A) (k : A -> M B) : M B :=
  fun w => match m w with
           | (Return a, w') => k a w'
           | (Raise e, w') => (Raise e, w')
           end.

(** [try: m except: h; raise] of the source: the handler runs, then the
    exception goes on. *)
Definition try_except_raise {A} (m : M A) (h : M unit) : M A :=
  fun w => match m w with
           | (Return a, w') => (Return a, w')
           | (Raise e, w') =>
               match h w' with
               | (Return _, w'') => (Raise e, w'')
               | (Raise e', w'') => (Raise e', w'')
               end
           end.

Notation "'let!' x ':=' m 'in' k" := (bind m (fun x => k))
  (at level 10, x pattern, m at level 100, k at level 200).
Notation "m ';;;' k" := (bind m (fun _ => k))
  (at level 100, k at level 200, right associativity).

Definition get {A} (f : world -> A) : M A := fun w => (Return (f w), w).
Definition modify (f : world -> world) : M unit := fun w => (Return tt, f w).

Definition when (b : bool) (m : M unit) : M unit := if b then m else ret tt.

Fixpoint for_each {A} (l : list A) (body : A -> M unit) : M unit :=
  match l with
  | [] => ret tt
  | x :: l' => body x ;;; for_each l' body
  end.

(** A loop that appends one value per element to a list. *)
Fixpoint for_each_append {A B} (l : list A) (body : A -> M B) : M (list B) :=
  match l with
  | [] => ret []
  | x :: l' => let! y := body x in let! ys := for_each_append l' body in ret (y :: ys)
  end.

(** ** Python values *)

(** [str(x)] of a string or None. *)
Definition str (o : option string) : string := default "None" o.

(** A string is needed and the value may be None: [a + b] and
    [s.replace(old, new)] raise TypeError on None. *)
Definition str_value (o : option string) : M string :=
  match o with
  | Some s => ret s
  | None => raise TypeError
  end.

(** The truth value of a string or None: None and the empty string are
    false. *)
Definition truthy (o : option string) : bool :=
  match o with
  | Some s => negb (bool_decide (s = ""))
  | None => false
  end.

(** The value of a string when it is true. *)
Definition if_true (o : option string) : option string :=
  if truthy o then o else None.

(** [fmt % args] with the conversion %s only: every %s takes the next
    argument; too few or too many arguments are a TypeError (None here). *)
Fixpoint py_format (fmt : string) (args : list string) : option string :=
  match fmt with
  | EmptyString => match args with [] => Some EmptyString | _ :: _ => None end
  | String c rest =>
      if bool_decide (c = "%"%char) then
        match rest with
        | String d rest' =>
            if bool_decide (d = "s"%char) then
              match args with
              | a :: args' => (fun r => a +:+ r) <$> py_format rest' args'
              | [] => None
              end
            else String c <$> py_format rest args
        | EmptyString => None
        end
      else String c <$> py_format rest args
  end.

Definition format (fmt : string) (args : list string) : M string :=
  match py_format fmt args with
  | Some s => ret s
  | None => raise TypeError
  end.

(** ** grass.script.core *)

Definition core_message (l : level) (msg : string) : M unit :=
  modify (set_messages (fun ms => ms ++ [(l, msg)])).

(** [core.fatal]: prints the error and ends the program. *)
Definition core_fatal {A} (msg : string) : M A :=
  core_message error msg ;;; raise SystemExit.

(** ** The database interface *)

(** [dbif = sql_database_interface(); dbif.connect()] *)
Definition connect : M nat :=
  fun w => (Return (length (conns w)), set_conns (fun l => l ++ [true]) w).

(** [dbif.close()] *)
Definition close (dbif : nat) : M unit :=
  modify (set_conns (fun l => <[dbif := false]> l)).

(** [dbif.connection.commit()].  The world keeps one view of the database, in
    which a statement takes effect when it is executed: a commit changes
    nothing the world records. *)
Definition commit (dbif : nat) : M unit := ret tt.

(** The first lines of every method:
    [connect = False; if dbif == None: dbif = ...; dbif.connect(); connect = True] *)
Definition dbif_or_connect (dbif : option nat) : M (nat * bool) :=
  match dbif with
  | None => let! c := connect in ret (c, true)
  | Some c => ret (c, false)
  end.

(** The statements the methods build.  Table names and ids are already put
    in; the text of the SQL templates is not part of the source file. *)
Inductive sql :=
  (** SELECT id FROM table WHERE id = ? *)
  | SELECT_id_WHERE_id (table : string) (id : option string)
  (** INSERT INTO table (id) VALUES (?) *)
  | INSERT_INTO (table : string) (id : option string)
  (** DELETE FROM table WHERE id = ? *)
  | DELETE_FROM_WHERE_id (table : string) (id : option string)
  (** DROP TABLE table *)
  | DROP_TABLE (table : string)
  (** map_stds_register_table_template.sql, stds_map_register_table_template.sql *)
  | CREATE_TABLE (table : string)
  (** SELECT columns FROM view WHERE view.id IN (SELECT id FROM register)
      AND where ORDER BY order *)
  | SELECT_FROM_view (columns : option string) (register : string)
      (where_ : option (string -> map_row -> bool)) (order : option string)
  (** SELECT max(start_time) FROM map time table WHERE id IN (SELECT id FROM register) *)
  | SELECT_max_start_time (register : string)
  (** UPDATE stds time table SET end_time = (SELECT max(start_time) ...) WHERE id = stds *)
  | UPDATE_SET_end_time (register : string) (stds_id : string)
  (** update_stds_spatial_temporal_extent_template.sql *)
  | UPDATE_spatial_temporal_extent (register : string) (stds_id : string)
  (** update_STDS_metadata_template.sql *)
  | UPDATE_metadata (register : string) (stds_id : string).

(** The maps a register joins: the rows of the map view whose id is in the
    register. *)
Definition registered_maps (w : world) (ids : list string) : list (string * map_row) :=
  filter (fun p => p.1 ∈ ids) (map_to_list (map_rows w)).

Definition max_time (ts : list Z) : option Z :=
  foldr (fun t acc => Some (match acc with Some u => Z.max t u | None => t end)) None ts.

Definition min_time (ts : list Z) : option Z :=
  foldr (fun t acc => Some (match acc with Some u => Z.min t u | None => t end)) None ts.

Definition max_start_time (w : world) (ids : list string) : option Z :=
  max_time ((fun p => map_start_time p.2) <$> registered_maps w ids).

Definition min_start_time (w : world) (ids : list string) : option Z :=
  min_time ((fun p => map_start_time p.2) <$> registered_maps w ids).

(** The maximum end time, NULL end times left out. *)
Definition max_end_time (w : world) (ids : list string) : option Z :=
  max_time (omap (fun p => map_end_time p.2) (registered_maps w ids)).

Definition time_cell (t : option Z) : cell :=
  match t with Some t => Time t | None => NULL end.

(** ORDER BY start_time *)
Definition start_time_le (p q : string * map_row) : Prop :=
  map_start_time p.2 <= map_start_time q.2.

#[global] Instance start_time_le_dec p q : Decision (start_time_le p q).
Proof. unfold start_time_le. apply _. Defined.

Definition with_s_end_time (t : option Z) (s : stds) : stds :=
  {| s_id := s_id s; s_name := s_name s; s_mapset := s_mapset s; s_ttype := s_ttype s;
     s_map_register := s_map_register s; s_number_of_maps := s_number_of_maps s;
     s_start_time := s_start_time s; s_end_time := t; s_map_time := s_map_time s |}.

Definition with_s_start_time (t : option Z) (s : stds) : stds :=
  {| s_id := s_id s; s_name := s_name s; s_mapset := s_mapset s; s_ttype := s_ttype s;
     s_map_register := s_map_register s; s_number_of_maps := s_number_of_maps s;
     s_start_time := t; s_end_time := s_end_time s; s_map_time := s_map_time s |}.

Definition with_s_map_time (t : option map_time) (s : stds) : stds :=
  {| s_id := s_id s; s_name := s_name s; s_mapset := s_mapset s; s_ttype := s_ttype s;
     s_map_register := s_map_register s; s_number_of_maps := s_number_of_maps s;
     s_start_time := s_start_time s; s_end_time := s_end_time s; s_map_time := t |}.

Definition with_s_number_of_maps (n : option nat) (s : stds) : stds :=
  {| s_id := s_id s; s_name := s_name s; s_mapset := s_mapset s; s_ttype := s_ttype s;
     s_map_register := s_map_register s; s_number_of_maps := n;
     s_start_time := s_start_time s; s_end_time := s_end_time s; s_map_time := s_map_time s |}.

Definition with_s_map_register (t : option string) (s : stds) : stds :=
  {| s_id := s_id s; s_name := s_name s; s_mapset := s_mapset s; s_ttype := s_ttype s;
     s_map_register := t; s_number_of_maps := s_number_of_maps s;
     s_start_time := s_start_time s; s_end_time := s_end_time s; s_map_time := s_map_time s |}.

Definition with_map_stds_register (t : option string) (m : map_row) : map_row :=
  {| map_name := map_name m; map_mapset := map_mapset m; map_stds_register := t;
     map_start_time := map_start_time m; map_end_time := map_end_time m |}.

(** A statement on a table that does not exist is an error of the back end. *)
Definition with_table {A} (table : string) (k : list string -> M A) : M A :=
  fun w => match registers w !! table with
           | Some ids => k ids w
           | None => (Raise DatabaseError, w)
           end.

(** Modelled from the spec: the effect of the SQL of the template files
    (map_stds_register_table_template.sql, stds_map_register_table_template.sql,
    update_stds_spatial_temporal_extent_template.sql,
    update_STDS_metadata_template.sql) and of the map views, none of which is
    in the source file.  A register table holds ids; the extent update sets
    the start time of the dataset to the minimum start time of the registered
    maps and its end time to their maximum end time, NULL left out; the
    metadata update sets the number of maps to their count.  A NULL id is not
    a row a register accepts; the view has the columns id and start_time. *)
Definition run (q : sql) : M (list row) :=
  match q with
  | SELECT_id_WHERE_id table id =>
      with_table table (fun ids =>
        ret ((fun i => [Text i]) <$> filter (fun i => Some i = id) ids))
  | INSERT_INTO table id =>
      with_table table (fun ids =>
        match id with
        | Some i => modify (set_registers <[table := ids ++ [i]]>) ;;; ret []
        | None => raise DatabaseError
        end)
  | DELETE_FROM_WHERE_id table id =>
      with_table table (fun ids =>
        modify (set_registers <[table := filter (fun i => Some i <> id) ids]>) ;;; ret [])
  | DROP_TABLE table =>
      with_table table (fun _ => modify (set_registers (delete table)) ;;; ret [])
  | CREATE_TABLE table =>
      fun w => match registers w !! table with
               | Some _ => (Raise DatabaseError, w)
               | None => (Return [], set_registers <[table := []]> w)
               end
  | SELECT_FROM_view columns register where_ order =>
      with_table register (fun ids =>
        let! maps := get (fun w => registered_maps w ids) in
        let maps := match where_ with
                    | Some cond => filter (fun p => cond p.1 p.2 = true) maps
                    | None => maps
                    end in
        let! maps := match order with
                     | None => ret maps
                     | Some o => if bool_decide (o = "start_time")
                                 then ret (merge_sort start_time_le maps)
                                 else raise DatabaseError
                     end in
        match columns with
        | None => ret ((fun p => [Text p.1; Time (map_start_time p.2)]) <$> maps)
        | Some c => if bool_decide (c = "id")
                    then ret ((fun p => [Text p.1]) <$> maps)
                    else raise DatabaseError
        end)
  | SELECT_max_start_time register =>
      with_table register (fun ids =>
        get (fun w => [[time_cell (max_start_time w ids)]]))
  | UPDATE_SET_end_time register stds_id =>
      with_table register (fun ids =>
        modify (fun w => set_stds_rows
                  (alter (with_s_end_time (max_start_time w ids)) stds_id) w) ;;; ret [])
  | UPDATE_spatial_temporal_extent register stds_id =>
      with_table register (fun ids =>
        modify (fun w => set_stds_rows
                  (alter (fun s => with_s_start_time (min_start_time w ids)
                                     (with_s_end_time (max_end_time w ids) s)) stds_id) w) ;;;
        ret [])
  | UPDATE_metadata register stds_id =>
      with_table register (fun ids =>
        modify (fun w => set_stds_rows
                  (alter (with_s_number_of_maps (Some (length (registered_maps w ids)))) stds_id) w) ;;;
        ret [])
  end.

(** The statements of one SQL text, in order; the rows are those of the last
    statement. *)
Fixpoint run_all (qs : list sql) : M (list row) :=
  match qs with
  | [] => ret []
  | [q] => run q
  | q :: qs' => run q ;;; run_all qs'
  end.

(** A text that fails changes nothing: the texts of several statements are
    wrapped in BEGIN TRANSACTION and END TRANSACTION. *)
Definition run_script (qs : list sql) : M (list row) :=
  fun w => match run_all qs w with
           | (Return rows, w') => (Return rows, w')
           | (Raise e, _) => (Raise e, w)
           end.

(** The back end fails when [fail_in] says so. *)
Definition tick : M unit :=
  fun w => match fail_in w with
           | None => (Return tt, w)
           | Some (S n) => (Return tt, set_fail_in (fun _ => Some n) w)
           | Some O => (Raise DatabaseError, set_fail_in (fun _ => None) w)
           end.

(** [dbif.cursor.execute(sql)] and [dbif.cursor.executescript(sql)], on the
    statements of the text [sql]; the value is the result set, from which
    [fetchone] and [fetchall] read. *)
Definition execute (dbif : nat) (qs : list sql) : M (list row) :=
  tick ;;; run_script qs.

Definition executescript (dbif : nat) (qs : list sql) : M (list row) :=
  tick ;;; run_script qs.

Definition fetchone (rows : list row) : option row := head rows.

Definition fetchall (rows : list row) : list row := rows.

(** [row["id"]] and [row[0]]: the first column of the row. *)
Definition item0 (r : row) : M cell :=
  match r with
  | c :: _ => ret c
  | [] => raise IndexError
  end.

Definition row_id (r : row) : M string :=
  let! c := item0 r in
  match c with
  | Text i => ret i
  | _ => raise TypeError
  end.

(** [str(uuid.uuid4()).replace("-", "")] *)
Definition uuid4 : M string :=
  fun w => (Return (default "" (head (uuid_draws w))), set_uuid_draws tail w).

(** ** Records of the temporal database *)

(** Modelled from the spec: the record primitives of abstract_dataset.py and
    of the base, metadata and temporal extent classes (is_in_db, select,
    update, update_all, delete), which are not in the source file.  select
    reads the stored fields into the object, update stores the fields of the
    object that are set, update_all stores every field, delete removes the
    record. *)
Definition map_is_in_db (map : string) (dbif : nat) : M bool :=
  get (fun w => bool_decide (is_Some (map_rows w !! map))).

(** [map.select(dbif)] *)
Definition map_select (map : string) (dbif : nat) : M map_row :=
  fun w => match map_rows w !! map with
           | Some m => (Return m, w)
           | None => (Raise DatabaseError, w)
           end.

(** [map.set_stds_register(name); map.metadata.update(dbif)] *)
Definition map_set_stds_register (map name : string) (dbif : nat) : M unit :=
  modify (set_map_rows (alter (with_map_stds_register (Some name)) map)).

Definition stored (w : world) : option stds :=
  s_id (self w) ≫= fun i => stds_rows w !! i.

Definition store (f : stds -> stds -> stds) : M unit :=
  modify (fun w => match s_id (self w) with
                   | Some i => set_stds_rows (alter (f (self w)) i) w
                   | None => w
                   end).

Definition load (f : stds -> stds -> stds) : M unit :=
  modify (fun w => match stored w with
                   | Some r => set_self (f r) w
                   | None => w
                   end).

(** [self.select(dbif)] *)
Definition select (dbif : option nat) : M unit :=
  let! (dbif, connect) := dbif_or_connect dbif in
  load (fun r _ => r) ;;;
  when connect (close dbif).

(** [self.metadata.select(dbif)] *)
Definition metadata_select (dbif : nat) : M unit :=
  load (fun r o => with_s_map_register (s_map_register r)
                     (with_s_number_of_maps (s_number_of_maps r) o)).

(** The record [r] with the metadata of the object [o] that are set. *)
Definition update_metadata (o r : stds) : stds :=
  let r := match s_map_register o with
           | Some t => with_s_map_register (Some t) r
           | None => r
           end in
  match s_number_of_maps o with
  | Some n => with_s_number_of_maps (Some n) r
  | None => r
  end.

(** [self.metadata.update(dbif)] *)
Definition metadata_update (dbif : nat) : M unit := store update_metadata.

(** [self.absolute_time.select(dbif)], [self.relative_time.select(dbif)]: the
    temporal extent of the model is the one of the temporal type of the
    dataset. *)
Definition time_select (dbif : nat) : M unit :=
  load (fun r o => with_s_start_time (s_start_time r)
                     (with_s_end_time (s_end_time r)
                        (with_s_map_time (s_map_time r) o))).

(** [self.absolute_time.update_all(dbif)], [self.relative_time.update_all(dbif)] *)
Definition time_update_all (dbif : nat) : M unit :=
  store (fun o r => with_s_start_time (s_start_time o)
                      (with_s_end_time (s_end_time o)
                         (with_s_map_time (s_map_time o) r))).

(** [self.base.delete(dbif)] *)
Definition base_delete (dbif : nat) : M unit :=
  modify (fun w => match s_id (self w) with
                   | Some i => set_stds_rows (delete i) w
                   | None => w
                   end).

(** ** Temporal relations *)

(** A map as an object: its id and the fields [select] read. *)
Definition map_object : Type := string * map_row.

(** Modelled from the spec: [temporal_relation] of abstract_dataset.py, which
    is not in the source file.  The relation of interval algebra between the
    (start, end) pairs of two maps, a map without end time being the interval
    that ends where it starts.  The spec names thirteen relations and defines
    none; the conditions are those of Allen, and the two names of the spec
    that Allen has not (follows, precedes) stand for the two relations of
    Allen that the spec does not name (started by, finished by). *)
Definition temporal_relation (a b : map_object) : string :=
  let s1 := map_start_time a.2 in
  let e1 := default s1 (map_end_time a.2) in
  let s2 := map_start_time b.2 in
  let e2 := default s2 (map_end_time b.2) in
  if bool_decide (s1 = s2 /\ e1 = e2) then "equal"
  else if bool_decide (s2 < s1 /\ e1 < e2) then "during"
  else if bool_decide (s1 < s2 /\ e2 < e1) then "contains"
  else if bool_decide (s1 < s2 /\ s2 < e1 /\ e1 < e2) then "overlaps"
  else if bool_decide (s2 < s1 /\ s1 < e2 /\ e2 < e1) then "overlapped"
  else if bool_decide (e1 < s2) then "before"
  else if bool_decide (e2 < s1) then "after"
  else if bool_decide (s1 = s2 /\ e1 < e2) then "starts"
  else if bool_decide (e1 = e2 /\ s2 < s1) then "finishes"
  else if bool_decide (e1 = s2) then "meets"
  else if bool_decide (s1 = e2) then "met"
  else if bool_decide (s1 = s2) then "follows"
  else "precedes".

(** ** The methods of abstract_space_time_dataset *)

Section abstract_space_time_dataset.

(** [dbmi]: the back end module in use. *)
Variable dbmi : dbmi_module.
(** [self.get_type()] *)
Variable stds_type : string.
(** [map.get_type()] and [self.get_new_map_instance(None).get_type()]: the
    maps of the world are the maps of the type of the dataset. *)
Variable map_type : string.

Definition get_id : M (option string) := get (fun w => s_id (self w)).

Definition get_map_register : M (option string) :=
  get (fun w => s_map_register (self w)).

Definition set_map_register (name : string) : M unit :=
  modify (set_self (with_s_map_register (Some name))).

Definition set_map_time (t : option map_time) : M unit :=
  modify (set_self (with_s_map_time t)).

Definition is_time_absolute : M bool :=
  get (fun w => bool_decide (s_ttype (self w) = Some absolute)).

Definition is_time_relative : M bool :=
  get (fun w => bool_decide (s_ttype (self w) = Some relative)).

(** [if dbmi.__name__ == "sqlite3": dbif.cursor.executescript(sql)
     else: dbif.cursor.execute(sql)] *)
Definition executescript_or_execute (dbif : nat) (qs : list sql) : M (list row) :=
  match dbmi with
  | sqlite3 => executescript dbif qs
  | psycopg2 => execute dbif qs
  end.

Definition get_registered_maps (columns : option string)
    (where_ : option (string -> map_row -> bool)) (order : option string)
    (dbif : option nat) : M (option (list row)) :=
  let! (dbif, connect) := dbif_or_connect dbif in
  let! register := get_map_register in
  let! rows :=
    match if_true register with
    | Some register =>
        try_except_raise
          (let! rows := execute dbif [SELECT_FROM_view columns register where_ order] in
           ret (Some (fetchall rows)))
          (when connect (close dbif) ;;;
           let! msg := format "Unable to get map ids from register table <%s>" [register] in
           core_message error msg)
    | None => ret None
    end in
  when connect (close dbif) ;;;
  ret rows.

Definition get_registered_maps_as_objects
    (where_ : option (string -> map_row -> bool)) (order : option string)
    (dbif : option nat) : M (list map_object) :=
  let! (dbif, connect) := dbif_or_connect dbif in
  let! rows := get_registered_maps (Some "id") where_ order (Some dbif) in
  let! obj_list :=
    match rows with
    | Some rows =>
        for_each_append rows (fun row =>
          let! map := row_id row in
          let! m := map_select map dbif in
          ret (map, m))
    | None => ret []
    end in
  when connect (close dbif) ;;;
  ret obj_list.

Definition get_temporal_relation_matrix (dbif : option nat) : M (list (list string)) :=
  let! (dbif, connect) := dbif_or_connect dbif in
  let matrix := [] in
  let! maps := get_registered_maps_as_objects None (Some "start_time") (Some dbif) in
  let row := (fun map : map_object => map.1) <$> maps in
  let matrix := matrix ++ [row] in
  let matrix :=
    matrix ++ ((fun mapA => (fun mapB => temporal_relation mapA mapB) <$> maps) <$> maps) in
  when connect (close dbif) ;;;
  ret matrix.

(** The value a call returns: None, True or False. *)
Definition unregister_map (map : string) (dbif : option nat) : M (option bool) :=
  let! (dbif, connect) := dbif_or_connect dbif in
  let! in_db := map_is_in_db map dbif in
  (if in_db then ret tt
   else close dbif ;;;
        let! msg := format "Unable to find map <%s> in temporal database" [map] in
        core_fatal msg) ;;;
  let! msg := format "Unregister %s map <%s>" [map_type; map] in
  core_message verbose msg ;;;
  let! m := map_select map dbif in
  let map_id := map in
  let map_register_table := map_stds_register m in
  let! stds_register_table := get_map_register in
  let! table := str_value map_register_table in
  let! id := get_id in
  let! rows := execute dbif [SELECT_id_WHERE_id table id] in
  match fetchone rows with
  | None =>
      let! id := get_id in
      let! msg := format "Map <%s> is not registered in space time dataset" [map_id; str id] in
      core_message warning msg ;;;
      when connect (close dbif) ;;;
      ret (Some false)
  | Some _ =>
      match map_register_table with
      | Some table =>
          let! id := get_id in
          execute dbif [DELETE_FROM_WHERE_id table id] ;;; ret tt
      | None => ret tt
      end ;;;
      match stds_register_table with
      | Some table => execute dbif [DELETE_FROM_WHERE_id table (Some map_id)] ;;; ret tt
      | None => ret tt
      end ;;;
      when connect (close dbif) ;;;
      ret None
  end.

Definition delete (dbif : option nat) : M unit :=
  let! id := get_id in
  let! msg := format "Delete space time %s  dataset <%s> from temporal database"
                [map_type; str id] in
  core_message verbose msg ;;;
  let! (dbif, connect) := dbif_or_connect dbif in
  select (Some dbif) ;;;
  let! register := get_map_register in
  let! msg := format "Drop map register table: %s" [str register] in
  core_message verbose msg ;;;
  match if_true register with
  | Some _ =>
      let! rows := get_registered_maps (Some "id") None None (Some dbif) in
      match rows with
      | Some rows =>
          for_each rows (fun row =>
            let! map := row_id row in
            unregister_map map (Some dbif) ;;; ret tt)
      | None => ret tt
      end ;;;
      try_except_raise
        (let! register := get_map_register in
         let! table := str_value register in
         execute dbif [DROP_TABLE table] ;;;
         commit dbif)
        (when connect (close dbif) ;;;
         let! register := get_map_register in
         let! msg := format "Unable to drop table <%s>" [str register] in
         core_message error msg)
  | None => ret tt
  end ;;;
  base_delete dbif ;;;
  modify (set_self (fun _ => reset None)) ;;;
  when connect (close dbif).

Definition register_map (map : string) (dbif : option nat) : M bool :=
  let! (dbif, connect) := dbif_or_connect dbif in
  let! in_db := map_is_in_db map dbif in
  (if in_db then ret tt
   else close dbif ;;;
        core_fatal "Only maps with absolute or relative valid time can be registered") ;;;
  let! id := get_id in
  let! msg := format "Register %s map <%s> in space time %s dataset <%s>"
                [map_type; map; map_type; str id] in
  core_message verbose msg ;;;
  let! m := map_select map dbif in
  let map_id := map in
  let map_name := map_name m in
  let map_mapset := map_mapset m in
  let map_register_table := map_stds_register m in
  let! stds_name := get (fun w => s_name (self w)) in
  let! stds_mapset := get (fun w => s_mapset (self w)) in
  let! stds_register_table := get_map_register in
  (if bool_decide (stds_mapset = Some map_mapset) then ret tt
   else close dbif ;;;
        core_fatal "Only maps from the same mapset can be registered") ;;;
  let! registered :=
    match if_true stds_register_table with
    | Some table =>
        let! rows := execute dbif [SELECT_id_WHERE_id table (Some map_id)] in
        ret (match fetchone rows with
             | Some (c :: _) => bool_decide (c = Text map_id)
             | _ => false
             end)
    | None => ret false
    end in
  if registered then
    when connect (close dbif) ;;;
    let! msg := format "Map <%s> is already registered." [map_id] in
    core_message warning msg ;;;
    ret false
  else
    let! map_register_table :=
      match map_register_table with
      | None =>
          let! uuid := uuid4 in
          let uuid_rand := "map_" +:+ uuid in
          let map_register_table := uuid_rand +:+ "_" +:+ stds_type +:+ "_register" in
          try_except_raise
            (executescript_or_execute dbif [CREATE_TABLE map_register_table])
            (when connect (close dbif) ;;;
             let! msg := format "Unable to create the space time %s dataset register table for <%s>"
                           [map_type; map] in
             core_message error msg) ;;;
          map_set_stds_register map map_register_table dbif ;;;
          let! msg := format "Created register table <%s> for %s map <%s>"
                        [map_register_table; map_type; map] in
          core_message verbose msg ;;;
          ret map_register_table
      | Some table => ret table
      end in
    let! stds_register_table :=
      match stds_register_table with
      | None =>
          let! name := str_value stds_name in
          let! mapset := str_value stds_mapset in
          let stds_register_table :=
            name +:+ "_" +:+ mapset +:+ "_" +:+ map_type +:+ "_register" in
          let! id := get_id in
          str_value id ;;;
          try_except_raise
            (executescript_or_execute dbif [CREATE_TABLE stds_register_table] ;;;
             commit dbif)
            (when connect (close dbif) ;;;
             let! msg := format "Unable to create the space time %s dataset register table for <%s>"
                           [map_type; map] in
             core_message error msg) ;;;
          set_map_register stds_register_table ;;;
          metadata_update dbif ;;;
          let! id := get_id in
          let! msg := format "Created register table <%s> for space time %s  dataset <%s>"
                        [stds_register_table; map_type; str id] in
          core_message verbose msg ;;;
          ret stds_register_table
      | Some table => ret table
      end in
    let! id := get_id in
    let! rows := execute dbif [SELECT_id_WHERE_id map_register_table id] in
    match fetchone rows with
    | None =>
        let! id := get_id in
        execute dbif [INSERT_INTO map_register_table id] ;;; ret tt
    | Some _ => ret tt
    end ;;;
    execute dbif [INSERT_INTO stds_register_table (Some map_id)] ;;;
    when connect (close dbif) ;;;
    ret true.

(** [end_time < max_start_time] of Python 2, the end time being a time
    stamp: a datetime compared with None or with a text is a TypeError; a
    number is greater than None and less than any text. *)
Definition lt_time (absolute_ : bool) (end_time : Z) (max_start_time : cell) : M bool :=
  match max_start_time with
  | Time t => ret (bool_decide (end_time < t))
  | NULL => if absolute_ then raise TypeError else ret false
  | Text _ => if absolute_ then raise TypeError else ret true
  end.

(** [tstring.find(":")] and [datetime.strptime(tstring, time_format)] on the
    cell that the sqlite3 driver hands back for max(start_time).  From the
    table of the absolute times the cell is the text of a time stamp; it reads
    back as the time stamp when the stamp has no fraction of a second, the
    formats being "%Y-%m-%d %H:%M:%S" and "%Y-%m-%d", and is a ValueError
    otherwise.  From the table of the relative times the cell is a number,
    which has no method find, as None has none.  A text that is no time stamp
    does not match the format. *)
Definition strptime (absolute_ : bool) (tstring : cell) : M cell :=
  match tstring with
  | NULL => raise AttributeError
  | Text _ => raise ValueError
  | Time t =>
      if absolute_ then
        if bool_decide (microsecond t = 0) then ret (Time t) else raise ValueError
      else raise AttributeError
  end.

Definition update_from_registered_maps (dbif : option nat) : M unit :=
  let! id := get_id in
  let! msg := format "Update metadata, spatial and temporal extent from all registered maps of <%s>"
                [str id] in
  core_message verbose msg ;;;
  let! register := get_map_register in
  if negb (truthy register) then ret tt
  else
    let! (dbif, connect) := dbif_or_connect dbif in
    let map_time : option map_time := None in
    let use_start_time := false in
    let! stds_name := get (fun w => s_name (self w)) in
    let! stds_mapset := get (fun w => s_mapset (self w)) in
    let! name := str_value stds_name in
    let! mapset := str_value stds_mapset in
    let spacetime_name := name +:+ "_" +:+ mapset in
    let register_table := spacetime_name +:+ "_" +:+ map_type +:+ "_register" in
    let! id := get_id in
    let! spacetime_id := str_value id in
    let sql := [UPDATE_metadata register_table spacetime_id] in
    let sql_script := UPDATE_spatial_temporal_extent register_table spacetime_id :: sql in
    executescript_or_execute dbif sql_script ;;;
    select None ;;;
    let! end_time := get (fun w => s_end_time (self w)) in
    let! (sql, map_time, use_start_time) :=
      match end_time with
      | None => ret (sql, map_time, true)
      | Some end_time =>
          (* the time table of the maps, which the temporal type chooses *)
          let! absolute_ := is_time_absolute in
          let sql := [SELECT_max_start_time register_table] in
          let! rows := execute dbif sql in
          match fetchone rows with
          | Some row =>
              let! max_start_time :=
                match dbmi with
                | sqlite3 => let! tstring := item0 row in strptime absolute_ tstring
                | psycopg2 => item0 row
                end in
              let! absolute_ := is_time_absolute in
              let! less := lt_time absolute_ end_time max_start_time in
              if less then ret (sql, Some mixed, true)
              else ret (sql, Some interval, use_start_time)
          | None => ret (sql, map_time, use_start_time)
          end
      end in
    let! map_time :=
      if use_start_time then
        let! absolute_ := is_time_absolute in
        let! relative_ := is_time_relative in
        let! id := get_id in
        let! sql :=
          if absolute_ then
            let! spacetime_id := str_value id in
            ret [UPDATE_SET_end_time register_table spacetime_id]
          else if relative_ then
            let! spacetime_id := str_value id in
            ret [UPDATE_SET_end_time register_table spacetime_id]
          else ret sql in
        executescript_or_execute dbif sql ;;;
        ret (match end_time with None => Some point | Some _ => map_time end)
      else ret map_time in
    time_select dbif ;;;
    metadata_select dbif ;;;
    let! number_of_maps := get (fun w => s_number_of_maps (self w)) in
    (if bool_decide (0 < default 0%nat number_of_maps)%nat then set_map_time map_time
     else set_map_time None) ;;;
    time_update_all dbif ;;;
    when connect (close dbif).

End abstract_space_time_dataset.


(** * What a call does *)

(** The call returns [a] and leaves a world in which [R] holds. *)
Definition returns {A} (a : A) (R : world -> Prop) (res : outcome A * world) : Prop :=
  exists w', res = (Return a, w') /\ R w'.

(** The call raises [e] and leaves a world in which [R] holds. *)
Definition raises {A} (e : exn) (R : world -> Prop) (res : outcome A * world) : Prop :=
  exists w', res = (Raise e, w') /\ R w'.

(** The connections after a call that got [dbif] and closes what it opened:
    the connection of the caller is as it was, the connection the call opened
    is closed. *)
Definition conns_released (dbif : option nat) (w w' : world) : Prop :=
  conns w' = match dbif with
             | Some _ => conns w
             | None => conns w ++ [false]
             end.

(** The two registers hold the same pairs: every map that the register of the
    dataset joins keeps the id of the dataset in a register of its own, which
    no other map of the dataset shares, and no other map does. *)
Definition registers_agree (w : world) (cid st : string) (sids : list string) : Prop :=
  (forall map m, map_rows w !! map = Some m -> map ∈ sids ->
     exists mt mids, map_stds_register m = Some mt /\ registers w !! mt = Some mids /\
                     cid ∈ mids /\ mt <> st) /\
  (forall map1 map2 m1 m2, map1 ∈ sids -> map2 ∈ sids ->
     map_rows w !! map1 = Some m1 -> map_rows w !! map2 = Some m2 ->
     map_stds_register m1 = map_stds_register m2 -> map1 = map2) /\
  (forall map m mt mids, map_rows w !! map = Some m -> map_stds_register m = Some mt ->
     registers w !! mt = Some mids -> cid ∈ mids -> map ∈ sids).

(** The register of a map after a registration: the one it has, or the one
    the registration creates, named after the next uuid. *)
Definition map_register_name (stds_type : string) (w : world) (m : map_row) : string :=
  match map_stds_register m with
  | Some table => table
  | None => ("map_" +:+ default "" (head (uuid_draws w))) +:+ "_" +:+ stds_type +:+ "_register"
  end.

(** The register of a dataset after a registration: the one it has, or the one
    the registration creates, named after the dataset. *)
Definition stds_register_name (map_type : string) (s : stds) : string :=
  match s_map_register s with
  | Some table => table
  | None => default "" (s_name s) +:+ "_" +:+ default "" (s_mapset s) +:+ "_" +:+
            map_type +:+ "_register"
  end.

(** The ids a register holds before a registration: those of the table the
    record names, or none when the record names no table and the table is yet
    to be created. *)
Definition rows_before (w : world) (name : option string) (table : string)
    (ids : list string) : Prop :=
  match name with
  | Some _ => registers w !! table = Some ids
  | None => registers w !! table = None /\ ids = []
  end.

(** The number of rows that hold the id [i]. *)
Definition rows_of (i : string) (ids : list string) : nat :=
  length (filter (fun j => j = i) ids).

(** The register of the dataset that the update reads: the table named after
    the name and the mapset of the dataset and the type of its maps. *)
Definition update_register_name (map_type name mapset : string) : string :=
  (name +:+ "_" +:+ mapset) +:+ "_" +:+ map_type +:+ "_register".

(** The end time and the map time that the update derives from the end time
    it reads back and the maximum start time of the registered maps: a
    dataset without end time ends at the maximum start time and is a point in
    time; an end time before the maximum start time is replaced by it and the
    dataset is mixed; any other end time stays and the dataset is an
    interval. *)
Definition classify (end_time max_start : option Z) : option Z * option map_time :=
  match end_time, max_start with
  | None, _ => (max_start, Some point)
  | Some e, Some s =>
      if bool_decide (e < s) then (Some s, Some mixed) else (Some e, Some interval)
  | Some e, None => (Some e, Some interval)
  end.

(** The record of a dataset after the update, [ids] being what its register
    holds: the extent of the registered maps, their number, and the map time,
    which is None for a dataset without maps. *)
Definition updated_record (w : world) (ids : list string) (r : stds) : stds :=
  let n := length (registered_maps w ids) in
  let c := classify (max_end_time w ids) (max_start_time w ids) in
  {| s_id := s_id r; s_name := s_name r; s_mapset := s_mapset r; s_ttype := s_ttype r;
     s_map_register := s_map_register r; s_number_of_maps := Some n;
     s_start_time := min_start_time w ids; s_end_time := c.1;
     s_map_time := if bool_decide (0 < n)%nat then c.2 else None |}.

(** The update can read the maximum start time back.  The update asks for it
    only when the registered maps have an end time.  The psycopg2 driver
    hands a time back as it is; with sqlite3 the method converts what it gets
    with strptime, which takes the text of an absolute time stamp without a
    fraction of a second. *)
Definition start_time_readable (dbmi : dbmi_module) (ty : temporal_type)
    (w : world) (ids : list string) : Prop :=
  match dbmi, max_end_time w ids with
  | sqlite3, Some _ =>
      ty = absolute /\
      match max_start_time w ids with
      | Some s => microsecond s = 0
      | None => True
      end
  | _, _ => True
  end.

(** The same for a dataset that holds one map. *)
Definition map_readable (dbmi : dbmi_module) (ty : temporal_type) (m : map_row) : Prop :=
  match dbmi, map_end_time m with
  | sqlite3, Some _ => ty = absolute /\ microsecond (map_start_time m) = 0
  | _, _ => True
  end.

(** The temporal extent and the map time of a dataset. *)
Definition extent (s : stds) : option Z * option Z * option map_time :=
  (s_start_time s, s_end_time s, s_map_time s).

(** * An example database *)

(** A dataset of raster maps without maps, and two maps of its mapset: [a]
    is a point in time, [b] an interval.  The times are whole seconds. *)
Definition dataset_c : stds :=
  {| s_id := Some "c@m"; s_name := Some "c"; s_mapset := Some "m";
     s_ttype := Some absolute; s_map_register := None; s_number_of_maps := None;
     s_start_time := None; s_end_time := None; s_map_time := None |}.

Definition seconds (n : Z) : Z := n * 1000000.

Definition map_a : map_row :=
  {| map_name := "a"; map_mapset := "m"; map_stds_register := None;
     map_start_time := seconds 1; map_end_time := None |}.

Definition map_b : map_row :=
  {| map_name := "b"; map_mapset := "m"; map_stds_register := None;
     map_start_time := seconds 5; map_end_time := Some (seconds 9) |}.

Definition world_0 : world :=
  {| registers := ∅;
     map_rows := {[ "a@m" := map_a; "b@m" := map_b ]};
     stds_rows := {[ "c@m" := dataset_c ]};
     self := dataset_c; conns := []; messages := []; fail_in := None;
     uuid_draws := ["u1"; "u2"] |}.

(** The world after [a] is registered in the dataset. *)
Definition world_a : world :=
  (register_map sqlite3 "strds" "raster" "a@m" None world_0).2.

(** The world after [b] is registered in the dataset. *)
Definition world_b : world :=
  (register_map sqlite3 "strds" "raster" "b@m" None world_0).2.

(** The world after [a] is registered and unregistered: both registers are
    there and hold nothing. *)
Definition world_a_unregistered : world :=
  (unregister_map "raster" "a@m" None world_a).2.

(** The world after [a] is registered, the register of [a] having lost its
    row since: the register of the dataset holds a row that the register of
    the map does not. *)
Definition world_stale : world :=
  set_registers <["map_u1_strds_register" := []]> world_a.

(** A world in which the back end fails on the statement after the next [n]. *)
Definition failing_in (n : nat) (w : world) : world :=
  set_fail_in (fun _ => Some n) w.

(** A world in which the caller holds one open connection, the connection 0. *)
Definition with_connection (w : world) : world :=
  set_conns (fun _ => [true]) w.


(** The world after [a] and then [b] are registered in the dataset. *)
Definition world_ab : world :=
  (register_map sqlite3 "strds" "raster" "b@m" None world_a).2.

(** The registration of [a] on the connection of the caller, in a world
    where both registers are there and the back end fails on the fourth
    statement, the insert into the register of the dataset. *)
Definition registration_cut_short : outcome bool * world :=
  register_map sqlite3 "strds" "raster" "a@m" (Some 0%nat)
    (failing_in 3 (with_connection world_a_unregistered)).

(** The row of [a] once it has a register. *)
Definition map_a_registered : map_row :=
  with_map_stds_register (Some "map_u1_strds_register") map_a.

(** A map of another mapset than the dataset. *)
Definition map_x : map_row :=
  {| map_name := "x"; map_mapset := "n"; map_stds_register := None;
     map_start_time := seconds 3; map_end_time := None |}.

(** The example database with the map of the other mapset. *)
Definition world_x : world :=
  set_map_rows <["x@n" := map_x]> world_0.

(** The world after [a] is registered, seen from an object of the dataset
    that was not read from the database since: it names no register. *)
Definition world_unselected : world :=
  set_self (fun _ => dataset_c) world_a.

(** The example database, the object of the dataset naming a register that
    does not go by the name of the dataset. *)
Definition world_renamed : world :=
  set_self (with_s_map_register (Some "old_register")) world_0.

(** The world after [a] is registered, the record and the object of the
    dataset holding an end time that was set by hand. *)
Definition world_a_ended : world :=
  set_stds_rows (alter (with_s_end_time (Some (seconds 100))) "c@m")
    (set_self (with_s_end_time (Some (seconds 100))) world_a).

(** The update of the dataset that holds [b] alone, and of the dataset that
    holds [a] alone and an end time set by hand. *)
Definition update_of_world_b : outcome unit * world :=
  update_from_registered_maps sqlite3 "raster" None world_b.

Definition update_of_world_a_ended : outcome unit * world :=
  update_from_registered_maps sqlite3 "raster" None world_a_ended.

(** The dataset and the example database with relative time: the times of
    the maps are numbers. *)
Definition dataset_r : stds :=
  {| s_id := Some "c@m"; s_name := Some "c"; s_mapset := Some "m";
     s_ttype := Some relative; s_map_register := None; s_number_of_maps := None;
     s_start_time := None; s_end_time := None; s_map_time := None |}.

Definition world_relative : world :=
  {| registers := ∅;
     map_rows := {[ "a@m" := map_a; "b@m" := map_b ]};
     stds_rows := {[ "c@m" := dataset_r ]};
     self := dataset_r; conns := []; messages := []; fail_in := None;
     uuid_draws := ["u1"; "u2"] |}.
(** * Reasoning about the methods *)

(** ** Running a method step by step *)

Lemma bind_Return {A B} (m : M A) (k : A -> M B) w a w' :
  m w = (Return a, w') -> bind m k w = k a w'.
Proof. intros H. unfold bind. by rewrite H. Qed.

Lemma bind_Raise {A B} (m : M A) (k : A -> M B) w e w' :
  m w = (Raise e, w') -> bind m k w = (Raise e, w').
Proof. intros H. unfold bind. by rewrite H. Qed.

Lemma bind_assoc {A B C} (m : M A) (k1 : A -> M B) (k2 : B -> M C) w :
  bind (bind m k1) k2 w = bind m (fun a => bind (k1 a) k2) w.
Proof. unfold bind. by destruct (m w) as [[a|e] w']. Qed.

Lemma try_except_raise_Return {A} (m : M A) (h : M unit) w a w' :
  m w = (Return a, w') -> try_except_raise m h w = (Return a, w').
Proof. intros H. unfold try_except_raise. by rewrite H. Qed.

Ltac norm1 :=
  cbn [bind ret get modify raise when dbif_or_connect connect close commit
       core_message core_fatal get_id get_map_register set_map_register
       set_map_time is_time_absolute is_time_relative
       str_value str if_true truthy fetchone fetchall item0 row_id
       executescript_or_execute
       registers map_rows stds_rows self conns messages fail_in uuid_draws
       set_registers set_map_rows set_stds_rows set_self set_conns
       set_messages set_fail_in set_uuid_draws
       s_id s_name s_mapset s_ttype s_map_register s_number_of_maps
       s_start_time s_end_time s_map_time
       with_s_end_time with_s_start_time with_s_map_time
       with_s_number_of_maps with_s_map_register
       map_name map_mapset map_stds_register map_start_time map_end_time
       with_map_stds_register
       fst snd negb].

Ltac norm := norm1; repeat (rewrite bind_assoc; norm1).

Tactic Notation "norm" "in" hyp(H) :=
  cbn [bind ret get modify raise when dbif_or_connect connect close commit
       core_message core_fatal get_id get_map_register set_map_register
       set_map_time is_time_absolute is_time_relative
       str_value str if_true truthy fetchone fetchall item0 row_id
       executescript_or_execute
       registers map_rows stds_rows self conns messages fail_in uuid_draws
       set_registers set_map_rows set_stds_rows set_self set_conns
       set_messages set_fail_in set_uuid_draws
       s_id s_name s_mapset s_ttype s_map_register s_number_of_maps
       s_start_time s_end_time s_map_time
       with_s_end_time with_s_start_time with_s_map_time
       with_s_number_of_maps with_s_map_register
       map_name map_mapset map_stds_register map_start_time map_end_time
       with_map_stds_register
       fst snd negb] in H.

(** Rewrite with the equations at hand as the run reaches them. *)
Ltac simp :=
  norm;
  repeat (match goal with
          | H : ?l = _ |- context [?l] => rewrite H
          end; norm).

Ltac side := simp; first [ eassumption | reflexivity | by simplify_map_eq ].

(** One step: the method in front returns, by lemma [L]. *)
Ltac step L := erewrite (bind_Return _ _ _ _ _); [ | eapply L; side ]; simp.

(** One step: the message in front is formatted. *)
Ltac step_format := erewrite (bind_Return (format _ _) _ _ _ _); [ | reflexivity ]; simp.

(** ** The primitives *)

Lemma map_is_in_db_true map dbif w m :
  map_rows w !! map = Some m -> map_is_in_db map dbif w = (Return true, w).
Proof. intros H. unfold map_is_in_db, get. by rewrite H. Qed.

Lemma map_is_in_db_false map dbif w :
  map_rows w !! map = None -> map_is_in_db map dbif w = (Return false, w).
Proof. intros H. unfold map_is_in_db, get. by rewrite H. Qed.

Lemma map_select_Some map dbif w m :
  map_rows w !! map = Some m -> map_select map dbif w = (Return m, w).
Proof. intros H. unfold map_select. by rewrite H. Qed.

Lemma tick_None w : fail_in w = None -> tick w = (Return tt, w).
Proof. intros H. unfold tick. by rewrite H. Qed.

Lemma execute_one dbif q w rows w' :
  fail_in w = None -> run q w = (Return rows, w') ->
  execute dbif [q] w = (Return rows, w').
Proof.
  intros Hf Hr. unfold execute. rewrite (bind_Return _ _ _ _ _ (tick_None _ Hf)).
  unfold run_script. cbn [run_all]. by rewrite Hr.
Qed.

Lemma execute_SELECT_id dbif table id w ids :
  fail_in w = None -> registers w !! table = Some ids ->
  execute dbif [SELECT_id_WHERE_id table id] w =
    (Return ((fun i => [Text i]) <$> filter (fun i => Some i = id) ids), w).
Proof.
  intros Hf H. apply execute_one; [done|]. cbn [run]. unfold with_table. by rewrite H.
Qed.

Lemma execute_DELETE dbif table id w ids :
  fail_in w = None -> registers w !! table = Some ids ->
  execute dbif [DELETE_FROM_WHERE_id table id] w =
    (Return [], set_registers <[table := filter (fun i => Some i <> id) ids]> w).
Proof.
  intros Hf H. apply execute_one; [done|]. cbn [run]. unfold with_table. by rewrite H.
Qed.

Lemma execute_INSERT dbif table i w ids :
  fail_in w = None -> registers w !! table = Some ids ->
  execute dbif [INSERT_INTO table (Some i)] w =
    (Return [], set_registers <[table := ids ++ [i]]> w).
Proof.
  intros Hf H. apply execute_one; [done|]. cbn [run]. unfold with_table. by rewrite H.
Qed.

Lemma execute_DROP dbif table w ids :
  fail_in w = None -> registers w !! table = Some ids ->
  execute dbif [DROP_TABLE table] w = (Return [], set_registers (base.delete table) w).
Proof.
  intros Hf H. apply execute_one; [done|]. cbn [run]. unfold with_table. by rewrite H.
Qed.

Lemma execute_CREATE dbmi dbif table w :
  fail_in w = None -> registers w !! table = None ->
  executescript_or_execute dbmi dbif [CREATE_TABLE table] w =
    (Return [], set_registers <[table := []]> w).
Proof.
  intros Hf H.
  assert (execute dbif [CREATE_TABLE table] w = (Return [], set_registers <[table := []]> w)) as He.
  { apply execute_one; [done|]. cbn [run]. by rewrite H. }
  destruct dbmi; exact He.
Qed.

(** A SELECT of an id finds the id when the table holds it, and nothing when
    it does not. *)
Lemma fetchone_SELECT_id_elem (i : string) (ids : list string) :
  i ∈ ids ->
  fetchone ((fun j => [Text j]) <$> filter (fun j => Some j = Some i) ids) = Some [Text i].
Proof.
  induction 1 as [x l|x y l Hin IH].
  - by rewrite filter_cons_True.
  - rewrite filter_cons. case_decide; [by simplify_eq|done].
Qed.

Lemma fetchone_SELECT_id_not_elem (i : string) (ids : list string) :
  i ∉ ids ->
  fetchone ((fun j => [Text j]) <$> filter (fun j => Some j = Some i) ids) = None.
Proof.
  intros Hni. induction ids as [|x l IH]; [done|].
  rewrite filter_cons. case_decide; simplify_eq.
  - exfalso. apply Hni. left.
  - apply IH. intros Hin. apply Hni. by right.
Qed.

Lemma filter_Some_ne (i : string) (ids : list string) :
  filter (fun j => Some j <> Some i) ids = filter (fun j => j <> i) ids.
Proof. apply list_filter_iff. intros x. split; intros H ?; apply H; congruence. Qed.

(** ** Calls *)

Lemma returns_intro {A} (a : A) (R : world -> Prop) w :
  R w -> returns a R (Return a, w).
Proof. intros H. by exists w. Qed.

Lemma raises_intro {A} e (R : world -> Prop) w :
  R w -> @raises A e R (Raise e, w).
Proof. intros H. by exists w. Qed.

Lemma returns_bind {A B} (m : M A) (k : A -> M B) w a (P : world -> Prop)
    (Q : outcome B * world -> Prop) :
  returns a P (m w) -> (forall w', P w' -> Q (k a w')) -> Q (bind m k w).
Proof. intros (w' & H & HP) HQ. rewrite (bind_Return _ _ _ _ _ H). by apply HQ. Qed.

Lemma raises_bind {A B} (m : M A) (k : A -> M B) w e (P : world -> Prop) :
  raises e P (m w) -> raises e P (bind m k w).
Proof. intros (w' & H & HP). rewrite (bind_Raise _ _ _ _ _ H). by exists w'. Qed.

Lemma conns_app_close (l : list bool) :
  <[length l := false]> (l ++ [true]) = l ++ [false].
Proof.
  rewrite insert_app_r_alt by done. by rewrite Nat.sub_diag.
Qed.

(** The method in front returns, by the lemma [L] on calls. *)
Ltac call L := eapply returns_bind; [ eapply L; side | ].

(** The run is over. *)
Ltac finish := first [ apply returns_intro | apply raises_intro ]; simp.

Lemma if_true_Some (s : string) : s <> "" -> if_true (Some s) = Some s.
Proof. intros H. unfold if_true, truthy. by rewrite bool_decide_eq_false_2. Qed.

Lemma truthy_Some (s : string) : s <> "" -> truthy (Some s) = true.
Proof. intros H. unfold truthy. by rewrite bool_decide_eq_false_2. Qed.

(** ** Records *)

Lemma load_Some f w cid r :
  s_id (self w) = Some cid -> stds_rows w !! cid = Some r ->
  load f w = (Return tt, set_self (f r) w).
Proof. intros Hid Hr. unfold load, modify, stored. rewrite Hid. cbn [mbind option_bind]. by rewrite Hr. Qed.

Lemma store_Some f w cid :
  s_id (self w) = Some cid ->
  store f w = (Return tt, set_stds_rows (alter (f (self w)) cid) w).
Proof. intros H. unfold store, modify. by rewrite H. Qed.

Lemma base_delete_Some dbif w cid :
  s_id (self w) = Some cid ->
  base_delete dbif w = (Return tt, set_stds_rows (base.delete cid) w).
Proof. intros H. unfold base_delete, modify. by rewrite H. Qed.

Lemma select_Some dbif w cid r :
  s_id (self w) = Some cid -> stds_rows w !! cid = Some r ->
  returns tt (fun w' =>
    self w' = r /\ registers w' = registers w /\ map_rows w' = map_rows w /\
    stds_rows w' = stds_rows w /\ fail_in w' = fail_in w /\
    uuid_draws w' = uuid_draws w /\ conns_released dbif w w')
  (select dbif w).
Proof.
  intros Hid Hr. unfold select, conns_released.
  destruct dbif as [c|]; simp; step load_Some; finish; by rewrite ?conns_app_close.
Qed.

(** ** The maps a register joins *)

Lemma elem_of_registered_maps w ids map m :
  (map, m) ∈ registered_maps w ids <-> map_rows w !! map = Some m /\ map ∈ ids.
Proof.
  unfold registered_maps. rewrite list_elem_of_filter, elem_of_map_to_list. cbn [fst]. tauto.
Qed.

Lemma NoDup_registered_maps w ids : NoDup (registered_maps w ids).*1.
Proof.
  unfold registered_maps.
  eapply sublist_NoDup; [apply (NoDup_fst_map_to_list (map_rows w))|].
  apply fmap_sublist, sublist_filter.
Qed.

Lemma registered_maps_nil w : registered_maps w [] = [].
Proof.
  unfold registered_maps.
  induction (map_to_list (map_rows w)) as [|p l IH]; [done|].
  rewrite filter_cons_False; [done|]. apply not_elem_of_nil.
Qed.

Lemma registered_maps_ext w w' ids :
  map_rows w' = map_rows w -> registered_maps w' ids = registered_maps w ids.
Proof. intros H. unfold registered_maps. by rewrite H. Qed.

Lemma get_registered_maps_id c w st sids :
  s_map_register (self w) = Some st -> st <> "" ->
  registers w !! st = Some sids -> fail_in w = None ->
  get_registered_maps (Some "id") None None (Some c) w =
    (Return (Some ((fun i => [Text i]) <$> (registered_maps w sids).*1)), w).
Proof.
  intros Hst Hne Hsids Hf. unfold get_registered_maps. simp.
  rewrite (if_true_Some _ Hne).
  erewrite bind_Return; [reflexivity|].
  apply try_except_raise_Return.
  erewrite bind_Return; [reflexivity|].
  apply execute_one; [done|].
  cbn [run]. unfold with_table. rewrite Hsids. simp.
  rewrite bool_decide_eq_true_2 by done. by rewrite <- list_fmap_compose.
Qed.

(** ** unregister_map *)

(** A pair that the register of the map does not hold: the warning cannot be
    formatted, and the method ends there with a TypeError, before it closes
    the connection it opened. *)
Lemma unregister_map_not_registered map_type map dbif w m mt mids cid :
  map_rows w !! map = Some m ->
  map_stds_register m = Some mt ->
  registers w !! mt = Some mids ->
  s_id (self w) = Some cid ->
  cid ∉ mids ->
  fail_in w = None ->
  raises TypeError (fun w' =>
    registers w' = registers w /\ map_rows w' = map_rows w /\
    stds_rows w' = stds_rows w /\ self w' = self w /\
    conns w' = match dbif with Some _ => conns w | None => conns w ++ [true] end)
  (unregister_map map_type map dbif w).
Proof.
  intros Hm Hmt Hmids Hid Hni Hf. unfold unregister_map.
  destruct dbif as [c|]; simp;
    step map_is_in_db_true; step_format; step map_select_Some;
    step execute_SELECT_id;
    rewrite (fetchone_SELECT_id_not_elem _ _ Hni); simp;
    (erewrite bind_Raise; [|reflexivity]); by finish.
Qed.

(** A registered pair: both rows are deleted; the value is None, the method
    has no return at its end. *)
Lemma unregister_map_registered map_type map dbif w m mt mids cid st sids :
  map_rows w !! map = Some m ->
  map_stds_register m = Some mt ->
  registers w !! mt = Some mids ->
  s_id (self w) = Some cid ->
  cid ∈ mids ->
  s_map_register (self w) = Some st ->
  registers w !! st = Some sids ->
  mt <> st ->
  fail_in w = None ->
  returns None (fun w' =>
    registers w' = <[st := filter (fun i => i <> map) sids]>
                     (<[mt := filter (fun i => i <> cid) mids]> (registers w)) /\
    map_rows w' = map_rows w /\ stds_rows w' = stds_rows w /\ self w' = self w /\
    fail_in w' = None /\ uuid_draws w' = uuid_draws w /\ conns_released dbif w w')
  (unregister_map map_type map dbif w).
Proof.
  intros Hm Hmt Hmids Hid Hin Hst Hsids Hne Hf. unfold unregister_map, conns_released.
  destruct dbif as [c|]; simp;
    step map_is_in_db_true; step_format; step map_select_Some;
    step execute_SELECT_id;
    rewrite (fetchone_SELECT_id_elem _ _ Hin); simp;
    step execute_DELETE; step execute_DELETE; finish;
    rewrite !filter_Some_ne, ?conns_app_close; done.
Qed.

(** ** delete *)

(** The loop of delete over the registered maps. *)
Lemma unregister_loop map_type cid st c (l : list string) :
  forall w sids,
  NoDup l ->
  fail_in w = None ->
  s_id (self w) = Some cid ->
  s_map_register (self w) = Some st ->
  registers w !! st = Some sids ->
  (forall map, map ∈ l ->
     exists m mt mids, map_rows w !! map = Some m /\ map_stds_register m = Some mt /\
       registers w !! mt = Some mids /\ cid ∈ mids /\ mt <> st) ->
  (forall map1 map2 m1 m2, map1 ∈ l -> map2 ∈ l ->
     map_rows w !! map1 = Some m1 -> map_rows w !! map2 = Some m2 ->
     map_stds_register m1 = map_stds_register m2 -> map1 = map2) ->
  returns tt (fun w' =>
    map_rows w' = map_rows w /\ stds_rows w' = stds_rows w /\ self w' = self w /\
    fail_in w' = None /\ conns w' = conns w /\ uuid_draws w' = uuid_draws w /\
    is_Some (registers w' !! st) /\
    (forall map m mt, map ∈ l -> map_rows w !! map = Some m ->
       map_stds_register m = Some mt ->
       exists mids, registers w !! mt = Some mids /\
                    registers w' !! mt = Some (filter (fun i => i <> cid) mids)) /\
    (forall t, t <> st ->
       (forall map m, map ∈ l -> map_rows w !! map = Some m -> map_stds_register m <> Some t) ->
       registers w' !! t = registers w !! t))
  (for_each ((fun i => [Text i]) <$> l)
     (fun row => let! map := row_id row in
                 unregister_map map_type map (Some c) ;;; ret tt) w).
Proof.
  induction l as [|map l IH]; intros w sids Hnd Hf Hid Hst Hsids Hreg Hinj.
  - apply returns_intro. split_and!; try done; try by exists sids.
    intros ??? Hin. by apply elem_of_nil in Hin.
  - apply NoDup_cons in Hnd as [Hnotin Hnd].
    destruct (Hreg map) as (m & mt & mids & Hm & Hmt & Hmids & Hin & Hne); [left|].
    assert (forall map', map' ∈ l -> forall m' mt', map_rows w !! map' = Some m' ->
              map_stds_register m' = Some mt' -> mt' <> mt) as Hother.
    { intros map' Hin' m' mt' Hm' Hmt' ->. apply Hnotin.
      assert (map' = map) as <-; [|done].
      eapply (Hinj map' map m' m); [by right|by left|done|done|congruence]. }
    cbn [fmap list_fmap for_each]. norm.
    eapply returns_bind;
      [eapply (unregister_map_registered map_type map (Some c) w m mt mids cid st sids); done|].
    intros w1 (Hregs1 & Hmaps1 & Hstds1 & Hself1 & Hf1 & Hu1 & Hc1). norm.
    unfold conns_released in Hc1.
    destruct (IH w1 (filter (fun i => i <> map) sids)) as
      (w' & Hloop & Hmaps' & Hstds' & Hself' & Hf' & Hc' & Hu' & Hst' & Htab' & Hframe'); try done.
    + congruence.
    + congruence.
    + rewrite Hregs1. by rewrite lookup_insert_eq.
    + intros map' Hin'.
      destruct (Hreg map') as (m' & mt' & mids' & Hm' & Hmt' & Hmids' & Hcin' & Hne'); [by right|].
      exists m', mt', mids'. rewrite Hmaps1, Hregs1.
      rewrite lookup_insert_ne by done.
      rewrite lookup_insert_ne by (symmetry; eapply Hother; done).
      done.
    + intros ???? Hi1 Hi2. rewrite Hmaps1. apply Hinj; by right.
    + exists w'. split; [exact Hloop|].
      split_and!; try congruence.
      * intros map' m' mt' Hin' Hm' Hmt'.
        apply elem_of_cons in Hin' as [->|Hin'].
        -- simplify_eq. exists mids. split; [done|].
           rewrite Hframe'; [|done|].
           ++ rewrite Hregs1. rewrite lookup_insert_ne by done. by rewrite lookup_insert_eq.
           ++ intros map2 m2 Hin2. rewrite Hmaps1. intros Hm2 Hmt2.
              eapply Hother; done.
        -- destruct (Htab' map' m' mt') as (mids' & Hl1 & Hl2); [done|by rewrite Hmaps1|done|].
           exists mids'. split; [|done].
           rewrite Hregs1 in Hl1.
           destruct (Hreg map') as (m2 & mt2 & mids2 & Hm2 & Hmt2 & Hmids2 & _ & Hne2); [by right|].
           simplify_eq.
           rewrite lookup_insert_ne in Hl1 by done.
           rewrite lookup_insert_ne in Hl1 by (symmetry; eapply Hother; done).
           done.
      * intros t Hnst Hnot.
        rewrite Hframe'; [|done|].
        -- rewrite Hregs1. rewrite lookup_insert_ne by done.
           rewrite lookup_insert_ne; [done|].
           intros ->. eapply Hnot; [left|done|done].
        -- intros map2 m2 Hin2. rewrite Hmaps1. intros Hm2. eapply Hnot; [by right|done].
Qed.

Lemma when_close (b : bool) c w :
  when b (close c) w =
    (Return tt, if b then set_conns (fun l => <[c := false]> l) w else w).
Proof. by destruct b. Qed.

(** C7: delete on a dataset that has a register, the registers of the
    dataset and of its maps holding the same pairs.  Every registered map is
    unregistered first, so that no register of a map holds the id of the
    dataset any more; then the register of the dataset is dropped and is no
    longer there, the record of the dataset is deleted, and the object is
    reset to one without an id. *)
Theorem delete_unregisters_and_drops map_type dbif w cid r st sids :
  s_id (self w) = Some cid ->
  stds_rows w !! cid = Some r ->
  s_id r = Some cid ->
  s_map_register r = Some st ->
  st <> "" ->
  registers w !! st = Some sids ->
  fail_in w = None ->
  registers_agree w cid st sids ->
  returns tt (fun w' =>
    map_rows w' = map_rows w /\
    (forall map m mt mids, map_rows w' !! map = Some m -> map_stds_register m = Some mt ->
       registers w' !! mt = Some mids -> cid ∉ mids) /\
    registers w' !! st = None /\
    stds_rows w' !! cid = None /\
    self w' = reset None /\
    conns_released dbif w w')
  (delete map_type dbif w).
Proof.
  intros Hid Hr Hrid Hrst Hne Hsids Hf (H1 & H2 & H3).
  set (l := (registered_maps w sids).*1).
  assert (forall map, map ∈ l <-> map ∈ sids /\ is_Some (map_rows w !! map)) as Hl.
  { intros map. unfold l. rewrite list_elem_of_fmap. split.
    - intros ([map' m] & -> & Hin). apply elem_of_registered_maps in Hin as [??]. eauto.
    - intros [Hin [m Hm]]. exists (map, m). split; [done|]. by apply elem_of_registered_maps. }
  pose proof (if_true_Some _ Hne) as Htrue.
  unfold delete. simp. step_format.
  assert (forall (connect : bool) (c : nat) (W : world),
            registers W = registers w -> map_rows W = map_rows w ->
            stds_rows W = stds_rows w -> self W = self w -> fail_in W = None ->
            conns W = (if connect then conns w ++ [true] else conns w) ->
            (connect = true -> c = length (conns w)) ->
    returns tt (fun w' =>
      map_rows w' = map_rows w /\
      (forall map m mt mids, map_rows w' !! map = Some m -> map_stds_register m = Some mt ->
         registers w' !! mt = Some mids -> cid ∉ mids) /\
      registers w' !! st = None /\ stds_rows w' !! cid = None /\
      self w' = reset None /\
      conns w' = (if connect then conns w ++ [false] else conns w))
    ((select (Some c) ;;;
      let! register := get_map_register in
      let! msg := format "Drop map register table: %s" [str register] in
      core_message verbose msg ;;;
      match if_true register with
      | Some _ =>
          let! rows := get_registered_maps (Some "id") None None (Some c) in
          match rows with
          | Some rows =>
              for_each rows (fun row =>
                let! map := row_id row in
                unregister_map map_type map (Some c) ;;; ret tt)
          | None => ret tt
          end ;;;
          try_except_raise
            (let! register := get_map_register in
             let! table := str_value register in
             execute c [DROP_TABLE table] ;;;
             commit c)
            (when connect (close c) ;;;
             let! register := get_map_register in
             let! msg := format "Unable to drop table <%s>" [str register] in
             core_message error msg)
      | None => ret tt
      end ;;;
      base_delete c ;;;
      modify (set_self (fun _ => reset None)) ;;;
      when connect (close c)) W)) as Hbody.
  2: { unfold conns_released.
       destruct dbif as [c'|]; simp;
         [apply (Hbody false c')|apply (Hbody true (length (conns w)))]; by simp. }
  intros connect c W Er0 Em0 Es0 Eself0 Ef0 Ec0 Hc.
  eapply returns_bind; [eapply (select_Some (Some c) W cid r); congruence|].
  intros w1 (Hself1 & Hreg1 & Hmaps1 & Hstds1 & Hf1 & Hu1 & Hc1). unfold conns_released in Hc1.
  subst r. norm. rewrite Hrst. norm. step_format. rewrite ?Htrue.
  rewrite ?bind_assoc. erewrite bind_Return; cycle 1.
  { apply (get_registered_maps_id c _ st sids); norm; congruence. }
  rewrite (registered_maps_ext w); [|norm; congruence]. fold l. norm.
  eapply returns_bind.
  { eapply (unregister_loop map_type cid st c l _ sids); norm; try congruence.
    - apply NoDup_registered_maps.
    - intros map [Hin [m Hm]]%Hl.
      destruct (H1 map m) as (mt & mids & ? & ? & ? & ?); [done|done|].
      exists m, mt, mids. rewrite Hmaps1, Hreg1, Em0, Er0. done.
    - intros map1 map2 m1 m2 [Hi1 _]%Hl [Hi2 _]%Hl. rewrite Hmaps1, Em0. by apply H2. }
  norm.
  intros w2 (Hmaps2 & Hstds2 & Hself2 & Hf2 & Hc2 & Hu2 & [sids2 Hst2] & Htab2 & Hframe2).
  norm in Hmaps2. norm in Hstds2. norm in Hself2. norm in Hc2. norm in Htab2. norm in Hframe2.
  assert (s_id (self w2) = Some cid) as Hid2 by congruence.
  assert (s_map_register (self w2) = Some st) as Hrst2 by congruence.
  erewrite bind_Return; cycle 1.
  { apply try_except_raise_Return. simp. step execute_DROP. reflexivity. }
  simp. step base_delete_Some. rewrite when_close. finish.
  assert (forall b : bool, forall W0 W1 : world, map_rows W0 = map_rows W1 ->
            registers W0 = registers W1 ->
            map_rows (if b then W0 else W1) = map_rows W1 /\
            registers (if b then W0 else W1) = registers W1) as Hif
    by (intros [] ????; done).
  split_and!.
  - destruct connect; norm; congruence.
  - intros map m mt mids.
    match goal with
    | |- context [map_rows (if ?b then ?W0 else ?W1)] =>
        destruct (Hif b W0 W1) as [-> ->]; [done|done|]
    end.
    norm. rewrite Hmaps2, Hmaps1, Em0.
    intros Hm Hmt Hlook.
    destruct (decide (mt = st)) as [->|Hnst]; [by rewrite lookup_delete_eq in Hlook|].
    rewrite lookup_delete_ne in Hlook by done.
    destruct (decide (Exists (fun map0 => (map_rows w !! map0 ≫= map_stds_register) = Some mt) l))
      as [Hex|Hnex].
    + apply Exists_exists in Hex as (map0 & Hin0 & Htab0).
      destruct (map_rows w !! map0) as [m0|] eqn:Hm0; [|done]. cbn in Htab0.
      destruct (Htab2 map0 m0 mt) as (mids0 & _ & Hl2); [done|congruence|done|].
      rewrite Hl2 in Hlook. simplify_eq.
      rewrite list_elem_of_filter. tauto.
    + intros Hcid. apply Hnex. apply Exists_exists.
      rewrite Hframe2 in Hlook; [|done|].
      * rewrite Hreg1, Er0 in Hlook.
        exists map. split; [|by rewrite Hm].
        apply Hl. split; [|by eauto]. eapply H3; done.
      * intros map0 m0 Hin0. rewrite Hmaps1, Em0. intros Hm0 Hmt0.
        apply Hnex. apply Exists_exists. exists map0. split; [done|]. by rewrite Hm0.
  - destruct connect; apply lookup_delete_eq.
  - destruct connect; norm; rewrite Hstds2, Hstds1, Es0; apply lookup_delete_eq.
  - by destruct connect.
  - destruct connect; norm; rewrite Hc2, Hc1, Ec0; [|done].
    rewrite Hc by done. apply conns_app_close.
Qed.

(** ** register_map *)

(** A map that the register of the dataset holds already: a warning, False,
    and nothing is written. *)
Lemma register_map_registered dbmi stds_type map_type map dbif w m st sids :
  map_rows w !! map = Some m ->
  s_mapset (self w) = Some (map_mapset m) ->
  s_map_register (self w) = Some st ->
  st <> "" ->
  registers w !! st = Some sids ->
  map ∈ sids ->
  fail_in w = None ->
  returns false (fun w' =>
    registers w' = registers w /\ map_rows w' = map_rows w /\
    stds_rows w' = stds_rows w /\ self w' = self w /\ conns_released dbif w w')
  (register_map dbmi stds_type map_type map dbif w).
Proof.
  intros Hm Hms Hst Hne Hsids Hin Hf. unfold register_map, conns_released.
  pose proof (if_true_Some _ Hne) as Htrue.
  destruct dbif as [c|]; simp;
    step map_is_in_db_true; step_format; step map_select_Some;
    rewrite bool_decide_eq_true_2 by done; simp;
    step execute_SELECT_id;
    rewrite (fetchone_SELECT_id_elem _ _ Hin); simp;
    rewrite bool_decide_eq_true_2 by done; simp;
    step_format; finish; by rewrite ?conns_app_close.
Qed.

Lemma uuid4_eq w :
  uuid4 w = (Return (default "" (head (uuid_draws w))), set_uuid_draws tail w).
Proof. reflexivity. Qed.

Lemma map_set_stds_register_eq map name dbif w :
  map_set_stds_register map name dbif w =
    (Return tt, set_map_rows (alter (with_map_stds_register (Some name)) map) w).
Proof. reflexivity. Qed.

Lemma metadata_update_Some dbif w cid :
  s_id (self w) = Some cid ->
  metadata_update dbif w =
    (Return tt, set_stds_rows (alter (update_metadata (self w)) cid) w).
Proof. apply store_Some. Qed.

Lemma try_CREATE dbmi c table h w :
  fail_in w = None -> registers w !! table = None ->
  try_except_raise (executescript_or_execute dbmi c [CREATE_TABLE table]) h w =
    (Return [], set_registers <[table := []]> w).
Proof. intros. apply try_except_raise_Return. by apply execute_CREATE. Qed.

Lemma try_CREATE_commit dbmi c table h w :
  fail_in w = None -> registers w !! table = None ->
  try_except_raise (executescript_or_execute dbmi c [CREATE_TABLE table] ;;; commit c) h w =
    (Return tt, set_registers <[table := []]> w).
Proof.
  intros. apply try_except_raise_Return.
  erewrite bind_Return; [reflexivity|]. by apply execute_CREATE.
Qed.

Lemma with_s_map_register_id s t :
  s_map_register s = Some t -> with_s_map_register (Some t) s = s.
Proof. destruct s. cbn. by intros ->. Qed.

Lemma with_map_stds_register_id m t :
  map_stds_register m = Some t -> with_map_stds_register (Some t) m = m.
Proof. destruct m. cbn. by intros ->. Qed.

Ltac map_ext :=
  apply map_eq; intros ?; rewrite ?lookup_insert; repeat case_decide; simplify_eq; done.

(** A pair that neither register holds: the registers are created where they
    are missing, the id of the dataset goes to the register of the map, the id
    of the map to the register of the dataset, and the value is True. *)
Lemma register_map_new dbmi stds_type map_type map dbif w m cid name mids sids :
  map_rows w !! map = Some m ->
  s_id (self w) = Some cid ->
  s_name (self w) = Some name ->
  s_mapset (self w) = Some (map_mapset m) ->
  rows_before w (map_stds_register m) (map_register_name stds_type w m) mids ->
  rows_before w (s_map_register (self w)) (stds_register_name map_type (self w)) sids ->
  map_register_name stds_type w m <> stds_register_name map_type (self w) ->
  s_map_register (self w) <> Some "" ->
  cid ∉ mids ->
  map ∉ sids ->
  fail_in w = None ->
  returns true (fun w' =>
    registers w' = <[stds_register_name map_type (self w) := sids ++ [map]]>
                     (<[map_register_name stds_type w m := mids ++ [cid]]> (registers w)) /\
    map_rows w' = <[map := with_map_stds_register (Some (map_register_name stds_type w m)) m]>
                    (map_rows w) /\
    self w' = with_s_map_register (Some (stds_register_name map_type (self w))) (self w) /\
    stds_rows w' = match s_map_register (self w) with
                   | Some _ => stds_rows w
                   | None => alter (update_metadata
                                      (with_s_map_register
                                         (Some (stds_register_name map_type (self w))) (self w)))
                               cid (stds_rows w)
                   end /\
    fail_in w' = None /\ conns_released dbif w w')
  (register_map dbmi stds_type map_type map dbif w).
Proof.
  intros Hm Hid Hname Hms Hmrows Hsrows Hne Hnempty Hcid Hmap Hf.
  unfold register_map, conns_released.
  unfold map_register_name, stds_register_name, rows_before in *.
  rewrite Hname, Hms in *. cbn [default] in *.
  destruct (map_stds_register m) as [mt|] eqn:Hmt;
  destruct (s_map_register (self w)) as [st|] eqn:Hst.
  - (* both registers exist *)
    assert (st <> "") as Hst_ne by congruence.
    pose proof (if_true_Some _ Hst_ne) as Htrue.
    destruct dbif as [c|]; simp;
      step map_is_in_db_true; step_format; step map_select_Some;
      rewrite bool_decide_eq_true_2 by done; simp;
      step execute_SELECT_id;
      rewrite (fetchone_SELECT_id_not_elem _ _ Hmap); simp;
      step execute_SELECT_id;
      rewrite (fetchone_SELECT_id_not_elem _ _ Hcid); simp;
      step execute_INSERT; step execute_INSERT; finish;
      rewrite ?conns_app_close;
      (split_and!; try done;
        [ symmetry; apply insert_id; by rewrite with_map_stds_register_id
        | by rewrite with_s_map_register_id ]).
  - (* the register of the dataset is created *)
    destruct Hsrows as [Hsnone ->].
    destruct dbif as [c|]; simp;
      step map_is_in_db_true; step_format; step map_select_Some;
      rewrite bool_decide_eq_true_2 by done; simp;
      step try_CREATE_commit; step metadata_update_Some; step_format;
      step execute_SELECT_id;
      rewrite (fetchone_SELECT_id_not_elem _ _ Hcid); simp;
      step execute_INSERT; step execute_INSERT; finish;
      rewrite ?conns_app_close;
      (split_and!; try done;
        [ map_ext
        | symmetry; apply insert_id; by rewrite with_map_stds_register_id ]).
  - (* the register of the map is created *)
    destruct Hmrows as [Hmnone ->].
    assert (st <> "") as Hst_ne by congruence.
    pose proof (if_true_Some _ Hst_ne) as Htrue.
    destruct dbif as [c|]; simp;
      step map_is_in_db_true; step_format; step map_select_Some;
      rewrite bool_decide_eq_true_2 by done; simp;
      step execute_SELECT_id;
      rewrite (fetchone_SELECT_id_not_elem _ _ Hmap); simp;
      step uuid4_eq; step try_CREATE; step map_set_stds_register_eq; step_format;
      step execute_SELECT_id;
      rewrite (fetchone_SELECT_id_not_elem _ _ Hcid); simp;
      step execute_INSERT; step execute_INSERT; finish;
      rewrite ?conns_app_close;
      (split_and!; try done;
        [ map_ext
        | apply map_eq; intros i; rewrite lookup_alter, lookup_insert;
          case_decide; simplify_eq; [by rewrite Hm|done]
        | by rewrite with_s_map_register_id ]).
  - (* both registers are created *)
    destruct Hmrows as [Hmnone ->]. destruct Hsrows as [Hsnone ->].
    destruct dbif as [c|]; simp;
      step map_is_in_db_true; step_format; step map_select_Some;
      rewrite bool_decide_eq_true_2 by done; simp;
      step uuid4_eq; step try_CREATE; step map_set_stds_register_eq; step_format;
      step try_CREATE_commit; step metadata_update_Some; step_format;
      step execute_SELECT_id;
      rewrite (fetchone_SELECT_id_not_elem _ _ Hcid); simp;
      step execute_INSERT; step execute_INSERT; finish;
      rewrite ?conns_app_close;
      (split_and!; try done;
        [ map_ext
        | apply map_eq; intros i; rewrite lookup_alter, lookup_insert;
          case_decide; simplify_eq; [by rewrite Hm|done] ]).
Qed.

Lemma returns_mono {A} (a : A) (P Q : world -> Prop) res :
  returns a P res -> (forall w, P w -> Q w) -> returns a Q res.
Proof. intros (w & H & HP) HPQ. exists w. eauto. Qed.

Lemma raises_mono {A} e (P Q : world -> Prop) (res : outcome A * world) :
  raises e P res -> (forall w, P w -> Q w) -> raises e Q res.
Proof. intros (w & H & HP) HPQ. exists w. eauto. Qed.

Lemma rows_of_snoc_fresh (i : string) (ids : list string) :
  i ∉ ids -> rows_of i (ids ++ [i]) = 1%nat.
Proof.
  intros Hni. unfold rows_of. rewrite filter_app, length_app.
  rewrite filter_cons_True, filter_nil by done. cbn [length].
  assert (filter (fun j => j = i) ids = []) as ->; [|done].
  induction ids as [|x l IH]; [done|].
  rewrite filter_cons_False; [apply IH|]; intros ?; apply Hni; subst; [by right|by left].
Qed.

(** C3: a pair that neither register holds is registered twice in sequence.
    The first call returns True and leaves exactly one row for the pair in the
    register of the map and in the register of the dataset; the second call
    returns False and leaves every register as it was. *)
Theorem register_map_twice dbmi stds_type map_type map dbif dbif' w m cid name mids sids :
  map_rows w !! map = Some m ->
  s_id (self w) = Some cid ->
  s_name (self w) = Some name ->
  s_mapset (self w) = Some (map_mapset m) ->
  rows_before w (map_stds_register m) (map_register_name stds_type w m) mids ->
  rows_before w (s_map_register (self w)) (stds_register_name map_type (self w)) sids ->
  map_register_name stds_type w m <> stds_register_name map_type (self w) ->
  stds_register_name map_type (self w) <> "" ->
  cid ∉ mids ->
  map ∉ sids ->
  fail_in w = None ->
  returns true (fun w1 =>
    (exists m1 mt mids1, map_rows w1 !! map = Some m1 /\ map_stds_register m1 = Some mt /\
       registers w1 !! mt = Some mids1 /\ rows_of cid mids1 = 1%nat) /\
    (exists st sids1, s_map_register (self w1) = Some st /\
       registers w1 !! st = Some sids1 /\ rows_of map sids1 = 1%nat) /\
    returns false (fun w2 => registers w2 = registers w1)
      (register_map dbmi stds_type map_type map dbif' w1))
  (register_map dbmi stds_type map_type map dbif w).
Proof.
  intros Hm Hid Hname Hms Hmrows Hsrows Hne Hnempty Hcid Hmap Hf.
  eapply returns_mono.
  { eapply register_map_new; try done.
    intros Hs. unfold stds_register_name in Hnempty. rewrite Hs in Hnempty. done. }
  intros w1 (Hreg & Hmaps & Hself & Hstds & Hf1 & Hc).
  set (mt := map_register_name stds_type w m) in *.
  set (st := stds_register_name map_type (self w)) in *.
  split_and!.
  - exists (with_map_stds_register (Some mt) m), mt, (mids ++ [cid]). split_and!.
    + rewrite Hmaps. apply lookup_insert_eq.
    + done.
    + rewrite Hreg. rewrite lookup_insert_ne by done. apply lookup_insert_eq.
    + by apply rows_of_snoc_fresh.
  - exists st, (sids ++ [map]). split_and!.
    + by rewrite Hself.
    + rewrite Hreg. apply lookup_insert_eq.
    + by apply rows_of_snoc_fresh.
  - eapply returns_mono.
    { eapply (register_map_registered dbmi stds_type map_type map dbif' w1
                (with_map_stds_register (Some mt) m) st (sids ++ [map])).
      - rewrite Hmaps. apply lookup_insert_eq.
      - rewrite Hself. cbn. done.
      - by rewrite Hself.
      - done.
      - rewrite Hreg. apply lookup_insert_eq.
      - apply elem_of_app. right. left.
      - done. }
    intros w2 (? & _). done.
Qed.

(** ** The back end fails *)

Lemma execute_fails dbif qs w :
  fail_in w = Some O ->
  execute dbif qs w = (Raise DatabaseError, set_fail_in (fun _ => None) w).
Proof. intros H. unfold execute, bind, tick. by rewrite H. Qed.

Lemma execute_one_later dbif q w n rows w' :
  fail_in w = Some (S n) ->
  run q (set_fail_in (fun _ => Some n) w) = (Return rows, w') ->
  execute dbif [q] w = (Return rows, w').
Proof.
  intros Hf Hr. unfold execute, bind, tick. rewrite Hf.
  unfold run_script. cbn [run_all]. by rewrite Hr.
Qed.

Lemma execute_SELECT_id_later dbif table id w n ids :
  fail_in w = Some (S n) -> registers w !! table = Some ids ->
  execute dbif [SELECT_id_WHERE_id table id] w =
    (Return ((fun i => [Text i]) <$> filter (fun i => Some i = id) ids),
     set_fail_in (fun _ => Some n) w).
Proof.
  intros Hf H. eapply execute_one_later; [done|]. cbn [run]. unfold with_table.
  cbn [registers set_fail_in]. by rewrite H.
Qed.

Lemma execute_INSERT_later dbif table i w n ids :
  fail_in w = Some (S n) -> registers w !! table = Some ids ->
  execute dbif [INSERT_INTO table (Some i)] w =
    (Return [], set_registers <[table := ids ++ [i]]> (set_fail_in (fun _ => Some n) w)).
Proof.
  intros Hf H. eapply execute_one_later; [done|]. cbn [run]. unfold with_table.
  cbn [registers set_fail_in]. by rewrite H.
Qed.

(** C4, as amended: the two inserts of register_map are consecutive
    statements on the connection, outside any handler, and nothing rolls back.
    When the back end fails on the insert into the register of the dataset,
    the error reaches the caller and the id of the dataset stays in the
    register of the map; when it fails on the insert into the register of the
    map, no register is changed. *)
Theorem register_map_insert_fails dbmi stds_type map_type map dbif w m cid mt mids st sids :
  map_rows w !! map = Some m ->
  map_stds_register m = Some mt ->
  s_id (self w) = Some cid ->
  s_mapset (self w) = Some (map_mapset m) ->
  s_map_register (self w) = Some st ->
  st <> "" ->
  registers w !! mt = Some mids ->
  registers w !! st = Some sids ->
  mt <> st ->
  cid ∉ mids ->
  map ∉ sids ->
  (fail_in w = Some 3%nat ->
   raises DatabaseError (fun w' =>
     registers w' = <[mt := mids ++ [cid]]> (registers w))
   (register_map dbmi stds_type map_type map dbif w)) /\
  (fail_in w = Some 2%nat ->
   raises DatabaseError (fun w' => registers w' = registers w)
   (register_map dbmi stds_type map_type map dbif w)).
Proof.
  intros Hm Hmt Hid Hms Hst Hne Hmids Hsids Hneq Hcid Hmap.
  pose proof (if_true_Some _ Hne) as Htrue.
  unfold register_map.
  split; intros Hf;
    destruct dbif as [c|]; simp;
      step map_is_in_db_true; step_format; step map_select_Some;
      rewrite bool_decide_eq_true_2 by done; simp;
      step execute_SELECT_id_later;
      rewrite (fetchone_SELECT_id_not_elem _ _ Hmap); simp;
      step execute_SELECT_id_later;
      rewrite (fetchone_SELECT_id_not_elem _ _ Hcid); simp.
  1,2: step execute_INSERT_later.
  all: (erewrite bind_Raise; [|apply execute_fails; side]); by finish.
Qed.

(** ** update_from_registered_maps *)

Lemma max_start_time_ext w w' ids :
  map_rows w' = map_rows w -> max_start_time w' ids = max_start_time w ids.
Proof. intros H. unfold max_start_time. by rewrite (registered_maps_ext w w'). Qed.

Lemma min_start_time_ext w w' ids :
  map_rows w' = map_rows w -> min_start_time w' ids = min_start_time w ids.
Proof. intros H. unfold min_start_time. by rewrite (registered_maps_ext w w'). Qed.

Lemma max_end_time_ext w w' ids :
  map_rows w' = map_rows w -> max_end_time w' ids = max_end_time w ids.
Proof. intros H. unfold max_end_time. by rewrite (registered_maps_ext w w'). Qed.

Lemma execute_update_script dbmi c table cid W w ids :
  fail_in W = None -> registers W !! table = Some ids -> map_rows W = map_rows w ->
  executescript_or_execute dbmi c
    [UPDATE_spatial_temporal_extent table cid; UPDATE_metadata table cid] W =
  (Return [],
   set_stds_rows
     (alter (fun s => with_s_number_of_maps (Some (length (registered_maps w ids)))
                        (with_s_start_time (min_start_time w ids)
                           (with_s_end_time (max_end_time w ids) s))) cid) W).
Proof.
  intros Hf Ht Hm.
  assert (execute c [UPDATE_spatial_temporal_extent table cid; UPDATE_metadata table cid] W =
    (Return [],
     set_stds_rows
       (alter (fun s => with_s_number_of_maps (Some (length (registered_maps w ids)))
                          (with_s_start_time (min_start_time w ids)
                             (with_s_end_time (max_end_time w ids) s))) cid) W)) as He.
  { unfold execute. rewrite (bind_Return _ _ _ _ _ (tick_None _ Hf)).
    unfold run_script. cbn [run_all run]. unfold with_table, bind, modify, ret.
    rewrite Ht. cbn [registers set_stds_rows]. rewrite Ht.
    rewrite (registered_maps_ext w), (min_start_time_ext w), (max_end_time_ext w) by done.
    unfold set_stds_rows. cbn. by rewrite alter_alter_eq. }
  destruct dbmi; exact He.
Qed.

Lemma execute_SELECT_max c table W w ids :
  fail_in W = None -> registers W !! table = Some ids -> map_rows W = map_rows w ->
  execute c [SELECT_max_start_time table] W =
    (Return [[time_cell (max_start_time w ids)]], W).
Proof.
  intros Hf Ht Hm. apply execute_one; [done|]. cbn [run]. unfold with_table, get.
  rewrite Ht. by rewrite (max_start_time_ext w).
Qed.

Lemma execute_UPDATE_end dbmi c table cid W w ids :
  fail_in W = None -> registers W !! table = Some ids -> map_rows W = map_rows w ->
  executescript_or_execute dbmi c [UPDATE_SET_end_time table cid] W =
    (Return [], set_stds_rows (alter (with_s_end_time (max_start_time w ids)) cid) W).
Proof.
  intros Hf Ht Hm.
  assert (execute c [UPDATE_SET_end_time table cid] W =
    (Return [], set_stds_rows (alter (with_s_end_time (max_start_time w ids)) cid) W)) as He.
  { apply execute_one; [done|]. cbn [run]. unfold with_table, bind, modify, ret.
    rewrite Ht. by rewrite (max_start_time_ext w). }
  destruct dbmi; exact He.
Qed.

Lemma select_eq dbif w cid r :
  s_id (self w) = Some cid -> stds_rows w !! cid = Some r ->
  select dbif w =
    (Return tt,
     match dbif with
     | Some _ => set_self (fun _ => r) w
     | None => set_conns (fun l => <[length (conns w) := false]> l)
                 (set_self (fun _ => r) (set_conns (fun l => l ++ [true]) w))
     end).
Proof.
  intros Hid Hr. unfold select. destruct dbif as [c|]; simp; step load_Some; reflexivity.
Qed.

Lemma time_select_Some dbif w cid r :
  s_id (self w) = Some cid -> stds_rows w !! cid = Some r ->
  time_select dbif w =
    (Return tt, set_self (with_s_start_time (s_start_time r) ∘
                          with_s_end_time (s_end_time r) ∘
                          with_s_map_time (s_map_time r)) w).
Proof. intros. unfold time_select. by erewrite load_Some. Qed.

Lemma metadata_select_Some dbif w cid r :
  s_id (self w) = Some cid -> stds_rows w !! cid = Some r ->
  metadata_select dbif w =
    (Return tt, set_self (with_s_map_register (s_map_register r) ∘
                          with_s_number_of_maps (s_number_of_maps r)) w).
Proof. intros. unfold metadata_select. by erewrite load_Some. Qed.

Lemma time_update_all_Some dbif w cid :
  s_id (self w) = Some cid ->
  time_update_all dbif w =
    (Return tt,
     set_stds_rows (alter (with_s_start_time (s_start_time (self w)) ∘
                           with_s_end_time (s_end_time (self w)) ∘
                           with_s_map_time (s_map_time (self w))) cid) w).
Proof. intros. unfold time_update_all. by erewrite store_Some. Qed.

Lemma choose_update {A} ty (X Y : M A) :
  (if bool_decide (Some ty = Some absolute) then X
   else if bool_decide (Some ty = Some relative) then X else Y) = X.
Proof. by destruct ty. Qed.

Lemma if_set_map_time (b : bool) x y :
  (if b then set_map_time x else set_map_time y) = set_map_time (if b then x else y).
Proof. by destruct b. Qed.

Lemma max_time_Some_inv ts e : max_time ts = Some e -> ts <> [].
Proof. by destruct ts. Qed.

Lemma max_time_cons_Some t ts : is_Some (max_time (t :: ts)).
Proof. cbn. eauto. Qed.

Lemma max_end_time_Some w ids e :
  max_end_time w ids = Some e ->
  (0 < length (registered_maps w ids))%nat /\ is_Some (max_start_time w ids).
Proof.
  unfold max_end_time, max_start_time. intros H.
  destruct (registered_maps w ids) as [|p l]; [done|].
  split; [cbn; lia|]. apply max_time_cons_Some.
Qed.

Lemma max_cell dbmi (absolute_ : bool) s w :
  match dbmi with
  | sqlite3 => absolute_ = true /\ microsecond s = 0
  | psycopg2 => True
  end ->
  match dbmi with
  | sqlite3 => let! tstring := item0 [Time s] in strptime absolute_ tstring
  | psycopg2 => item0 [Time s]
  end w = (Return (Time s), w).
Proof.
  destruct dbmi; [|done]. intros [-> H]. cbn [item0 bind ret strptime].
  by rewrite bool_decide_eq_true_2.
Qed.

Lemma start_time_readable_cell dbmi ty w ids e s :
  start_time_readable dbmi ty w ids ->
  max_end_time w ids = Some e -> max_start_time w ids = Some s ->
  match dbmi with
  | sqlite3 => bool_decide (Some ty = Some absolute) = true /\ microsecond s = 0
  | psycopg2 => True
  end.
Proof.
  unfold start_time_readable. intros H He Hs. rewrite He in H.
  destruct dbmi; [|done]. destruct H as [-> H]. split; [done|]. by rewrite Hs in H.
Qed.

Lemma lt_time_Time b e s w :
  lt_time b e (Time s) w = (Return (bool_decide (e < s)), w).
Proof. reflexivity. Qed.

Ltac side_row :=
  simp; rewrite ?lookup_alter_eq; simp; reflexivity.

Ltac step_row L := erewrite (bind_Return _ _ _ _ _); [ | eapply L; [side | side_row] ]; simp.

Lemma stds_eq (a b : stds) :
  s_id a = s_id b -> s_name a = s_name b -> s_mapset a = s_mapset b ->
  s_ttype a = s_ttype b -> s_map_register a = s_map_register b ->
  s_number_of_maps a = s_number_of_maps b -> s_start_time a = s_start_time b ->
  s_end_time a = s_end_time b -> s_map_time a = s_map_time b -> a = b.
Proof. destruct a, b. cbn. by intros -> -> -> -> -> -> -> -> ->. Qed.

Ltac record_eq r :=
  apply stds_eq; unfold updated_record, classify, compose; simp;
  cbn [default fst snd id]; simp; try done.

Ltac stds_rows_eq cid r Hr :=
  apply map_eq; intros i;
  destruct (decide (i = cid)) as [->|Hi];
  [ rewrite lookup_insert_eq, !lookup_alter_eq, Hr; cbn [fmap option_fmap option_map];
    f_equal; record_eq r
  | rewrite lookup_insert_ne by done; rewrite !lookup_alter_ne by done; reflexivity ].

Lemma update_from_registered_maps_spec dbmi map_type dbif w cid name mapset st r ty ids :
  s_id (self w) = Some cid ->
  s_name (self w) = Some name ->
  s_mapset (self w) = Some mapset ->
  s_map_register (self w) = Some st ->
  st <> "" ->
  registers w !! update_register_name map_type name mapset = Some ids ->
  stds_rows w !! cid = Some r ->
  s_id r = Some cid ->
  s_ttype r = Some ty ->
  fail_in w = None ->
  start_time_readable dbmi ty w ids ->
  returns tt (fun w' =>
    stds_rows w' = <[cid := updated_record w ids r]> (stds_rows w) /\
    self w' = updated_record w ids r /\
    registers w' = registers w /\ map_rows w' = map_rows w /\
    fail_in w' = None /\ uuid_draws w' = uuid_draws w)
  (update_from_registered_maps dbmi map_type dbif w).
Proof.
  intros Hid Hname Hmapset Hst Hne Hids Hr Hrid Htt Hf Hread.
  unfold update_register_name in Hids.
  pose proof (bool_decide_eq_false_2 _ Hne) as Hbd.
  unfold update_from_registered_maps.
  destruct (max_end_time w ids) as [e|] eqn:Hend.
  2: { destruct dbif as [c|]; simp; step_format;
       step execute_update_script; step_row select_eq;
       rewrite choose_update; simp;
       step execute_UPDATE_end; step_row time_select_Some; step_row metadata_select_Some;
       rewrite if_set_map_time; simp;
       step time_update_all_Some; finish;
       (split_and!; try done; [stds_rows_eq cid r Hr | record_eq r]). }
  destruct (max_end_time_Some _ _ _ Hend) as [Hn [s Hs]].
  pose proof (bool_decide_eq_true_2 _ Hn) as Hnb.
  pose proof (start_time_readable_cell _ _ _ _ _ _ Hread Hend Hs) as Hcell.
  destruct (bool_decide (e < s)) eqn:Hlt.
  - destruct dbif as [c|]; simp; step_format;
      step execute_update_script; step_row select_eq;
      step execute_SELECT_max; cbn [time_cell fetchone head]; simp;
      step max_cell; step lt_time_Time;
      rewrite choose_update; simp;
      step execute_UPDATE_end; step_row time_select_Some; step_row metadata_select_Some;
      rewrite if_set_map_time; simp;
      step time_update_all_Some; finish;
      (split_and!; try done; [stds_rows_eq cid r Hr | record_eq r]).
  - destruct dbif as [c|]; simp; step_format;
      step execute_update_script; step_row select_eq;
      step execute_SELECT_max; cbn [time_cell fetchone head]; simp;
      step max_cell; step lt_time_Time;
      step_row time_select_Some; step_row metadata_select_Some;
      rewrite if_set_map_time; simp;
      step time_update_all_Some; finish;
      (split_and!; try done; [stds_rows_eq cid r Hr | record_eq r]).
Qed.

(** ** The conversion of the maximum start time fails *)

Lemma strptime_raises (ty : temporal_type) s w :
  (ty = absolute -> microsecond s <> 0) ->
  (let! tstring := item0 [Time s] in
   strptime (bool_decide (Some ty = Some absolute)) tstring) w =
    (Raise (match ty with absolute => ValueError | relative => AttributeError end), w).
Proof.
  intros H. cbn [item0 bind ret]. destruct ty; cbn [strptime].
  - rewrite bool_decide_eq_true_2 by done. by rewrite bool_decide_eq_false_2 by auto.
  - by rewrite bool_decide_eq_false_2 by done.
Qed.

(** With sqlite3 the update converts the maximum start time it reads back.
    For a dataset of relative time the cell is a number and the conversion an
    AttributeError; for a time stamp with a fraction of a second it is a
    ValueError.  The exception leaves the method after the first script has
    written the extent and the number of maps: the registers and the maps are
    as they were. *)
Lemma update_from_registered_maps_unreadable dbmi map_type dbif w cid name mapset st r ty
    ids e s :
  dbmi = sqlite3 ->
  s_id (self w) = Some cid ->
  s_name (self w) = Some name ->
  s_mapset (self w) = Some mapset ->
  s_map_register (self w) = Some st ->
  st <> "" ->
  registers w !! update_register_name map_type name mapset = Some ids ->
  stds_rows w !! cid = Some r ->
  s_id r = Some cid ->
  s_ttype r = Some ty ->
  fail_in w = None ->
  max_end_time w ids = Some e ->
  max_start_time w ids = Some s ->
  (ty = absolute -> microsecond s <> 0) ->
  raises (match ty with absolute => ValueError | relative => AttributeError end) (fun w' =>
    registers w' = registers w /\ map_rows w' = map_rows w /\
    (exists r', stds_rows w' !! cid = Some r' /\ self w' = r' /\
                s_end_time r' = Some e /\ s_map_time r' = s_map_time r))
  (update_from_registered_maps dbmi map_type dbif w).
Proof.
  intros Hdb Hid Hname Hmapset Hst Hne Hids Hr Hrid Htt Hf Hend Hs Hbad.
  symmetry in Hdb.
  unfold update_register_name in Hids.
  pose proof (bool_decide_eq_false_2 _ Hne) as Hbd.
  unfold update_from_registered_maps.
  destruct dbif as [c|]; simp; step_format;
    step execute_update_script; step_row select_eq;
    step execute_SELECT_max; cbn [time_cell fetchone head]; simp;
    rewrite <- Hdb;
    (erewrite bind_Raise; [|by apply strptime_raises]);
    finish; (split_and!; try done);
    eexists; (split; [rewrite lookup_alter_eq, Hr; reflexivity|]); simp; done.
Qed.

Lemma max_end_time_no_maps w ids :
  length (registered_maps w ids) = 0%nat -> max_end_time w ids = None.
Proof.
  unfold max_end_time. destruct (registered_maps w ids); [done|]. cbn. lia.
Qed.

Lemma start_time_readable_None dbmi ty w ids :
  max_end_time w ids = None -> start_time_readable dbmi ty w ids.
Proof. intros H. unfold start_time_readable. rewrite H. by destruct dbmi. Qed.

(** C1, as amended: the update of a dataset that has a register.  The first
    script of the update stores the maximum end time of the registered maps
    as the end time of the dataset, whatever end time was stored before, and
    the end time the update reads back is that one.  When it is None, no map
    having an end time, the end time written is the maximum start time of the
    registered maps and the map time written is point, the dataset having
    maps.  When the dataset has no maps the map time written is None. *)
Theorem update_without_end_time dbmi map_type dbif w cid name mapset st r ty ids :
  s_id (self w) = Some cid ->
  s_name (self w) = Some name ->
  s_mapset (self w) = Some mapset ->
  s_map_register (self w) = Some st ->
  st <> "" ->
  registers w !! update_register_name map_type name mapset = Some ids ->
  stds_rows w !! cid = Some r ->
  s_id r = Some cid ->
  s_ttype r = Some ty ->
  fail_in w = None ->
  (max_end_time w ids = None ->
   returns tt (fun w' =>
     exists r', stds_rows w' !! cid = Some r' /\ self w' = r' /\
       s_end_time r' = max_start_time w ids /\
       s_map_time r' = if bool_decide (0 < length (registered_maps w ids))%nat
                       then Some point else None)
   (update_from_registered_maps dbmi map_type dbif w)) /\
  (length (registered_maps w ids) = 0%nat ->
   returns tt (fun w' =>
     exists r', stds_rows w' !! cid = Some r' /\ self w' = r' /\ s_map_time r' = None)
   (update_from_registered_maps dbmi map_type dbif w)).
Proof.
  intros Hid Hname Hmapset Hst Hne Hids Hr Hrid Htt Hf. split.
  - intros Hend.
    eapply returns_mono;
      [eapply update_from_registered_maps_spec; try done;
       by apply start_time_readable_None|].
    intros w' (Hstds & Hself & _).
    exists (updated_record w ids r). split_and!.
    + rewrite Hstds. apply lookup_insert_eq.
    + done.
    + unfold updated_record, classify. rewrite Hend. done.
    + unfold updated_record, classify. rewrite Hend. done.
  - intros Hn.
    eapply returns_mono;
      [eapply update_from_registered_maps_spec; try done;
       by apply start_time_readable_None, max_end_time_no_maps|].
    intros w' (Hstds & Hself & _).
    exists (updated_record w ids r). split_and!.
    + rewrite Hstds. apply lookup_insert_eq.
    + done.
    + unfold updated_record. cbn [s_map_time]. rewrite Hn. done.
Qed.

(** C2, as amended: the update of a dataset whose registered maps have the
    maximum end time [e], which is the end time the update reads back after
    its first script, whatever end time was stored before; [s] is the maximum
    start time of the maps, which the update can read back.  An end time
    before [s] makes the dataset mixed and is replaced by [s]; any other end
    time, [s] itself too, makes it an interval and stays. *)
Theorem update_with_end_time dbmi map_type dbif w cid name mapset st r ty ids e :
  s_id (self w) = Some cid ->
  s_name (self w) = Some name ->
  s_mapset (self w) = Some mapset ->
  s_map_register (self w) = Some st ->
  st <> "" ->
  registers w !! update_register_name map_type name mapset = Some ids ->
  stds_rows w !! cid = Some r ->
  s_id r = Some cid ->
  s_ttype r = Some ty ->
  fail_in w = None ->
  max_end_time w ids = Some e ->
  (0 < length (registered_maps w ids))%nat ->
  start_time_readable dbmi ty w ids ->
  returns tt (fun w' =>
    exists r' s, stds_rows w' !! cid = Some r' /\ self w' = r' /\
      max_start_time w ids = Some s /\
      (e < s -> s_map_time r' = Some mixed /\ s_end_time r' = Some s) /\
      (s <= e -> s_map_time r' = Some interval /\ s_end_time r' = Some e))
  (update_from_registered_maps dbmi map_type dbif w).
Proof.
  intros Hid Hname Hmapset Hst Hne Hids Hr Hrid Htt Hf Hend Hn Hread.
  eapply returns_mono; [by eapply update_from_registered_maps_spec|].
  intros w' (Hstds & Hself & _).
  destruct (max_end_time_Some _ _ _ Hend) as [_ [s Hs]].
  exists (updated_record w ids r), s. split_and!.
  - rewrite Hstds. apply lookup_insert_eq.
  - done.
  - done.
  - intros Hlt. unfold updated_record, classify. rewrite Hend, Hs.
    cbn [s_map_time s_end_time]. rewrite !bool_decide_eq_true_2 by done. done.
  - intros Hle. unfold updated_record, classify. rewrite Hend, Hs.
    cbn [s_map_time s_end_time]. rewrite (bool_decide_eq_true_2 _ Hn).
    rewrite bool_decide_eq_false_2 by lia. done.
Qed.

(** ** The round trip *)

Lemma string_app_assoc (a b c : string) : (a +:+ b) +:+ c = a +:+ b +:+ c.
Proof.
  induction a as [|x a IH]; [reflexivity|].
  change (String x ((a +:+ b) +:+ c) = String x (a +:+ b +:+ c)). by rewrite IH.
Qed.

Lemma string_app_ne_empty (a b : string) : b <> "" -> a +:+ b <> "".
Proof.
  destruct a as [|x a]; [exact id|].
  intros _ H. change (String x (a +:+ b) = "") in H. discriminate.
Qed.

Lemma update_register_name_eq map_type name mapset :
  update_register_name map_type name mapset =
    name +:+ "_" +:+ mapset +:+ "_" +:+ map_type +:+ "_register".
Proof. unfold update_register_name. by rewrite !string_app_assoc. Qed.

Lemma update_register_name_ne map_type name mapset :
  update_register_name map_type name mapset <> "".
Proof.
  rewrite update_register_name_eq.
  repeat (apply string_app_ne_empty). discriminate.
Qed.

Lemma s_id_update_metadata o r : s_id (update_metadata o r) = s_id r.
Proof. unfold update_metadata. by destruct (s_map_register o), (s_number_of_maps o). Qed.

Lemma s_ttype_update_metadata o r : s_ttype (update_metadata o r) = s_ttype r.
Proof. unfold update_metadata. by destruct (s_map_register o), (s_number_of_maps o). Qed.

Lemma s_name_update_metadata o r : s_name (update_metadata o r) = s_name r.
Proof. unfold update_metadata. by destruct (s_map_register o), (s_number_of_maps o). Qed.

Lemma s_mapset_update_metadata o r : s_mapset (update_metadata o r) = s_mapset r.
Proof. unfold update_metadata. by destruct (s_map_register o), (s_number_of_maps o). Qed.

Lemma s_map_register_update_metadata o r t :
  s_map_register o = Some t -> s_map_register (update_metadata o r) = Some t.
Proof. unfold update_metadata. intros ->. by destruct (s_number_of_maps o). Qed.

Lemma extent_updated_empty w r : extent (updated_record w [] r) = (None, None, None).
Proof.
  unfold extent, updated_record, classify, min_start_time, max_start_time, max_end_time.
  rewrite registered_maps_nil. reflexivity.
Qed.

Lemma registered_maps_singleton w map m :
  map_rows w !! map = Some m -> registered_maps w [map] = [(map, m)].
Proof.
  intros Hm.
  pose proof (NoDup_registered_maps w [map]) as Hnd.
  assert (forall p, p ∈ registered_maps w [map] -> p = (map, m)) as Hall.
  { intros [map' m'] [Hm' Hin]%elem_of_registered_maps.
    apply list_elem_of_singleton in Hin as ->. congruence. }
  assert ((map, m) ∈ registered_maps w [map]) as Hin.
  { apply elem_of_registered_maps. split; [done|]. by left. }
  destruct (registered_maps w [map]) as [|p l]; [by apply elem_of_nil in Hin|].
  rewrite (Hall p) by left. f_equal.
  destruct l as [|q l]; [done|]. exfalso.
  rewrite (Hall p), (Hall q) in Hnd by (try left; right; left).
  cbn in Hnd. apply NoDup_cons in Hnd as [Hnd _]. apply Hnd. left.
Qed.

Lemma max_end_time_singleton w map m :
  map_rows w !! map = Some m -> max_end_time w [map] = map_end_time m.
Proof.
  intros Hm. unfold max_end_time. rewrite (registered_maps_singleton _ _ _ Hm).
  cbn. by destruct (map_end_time m).
Qed.

Lemma max_start_time_singleton w map m :
  map_rows w !! map = Some m -> max_start_time w [map] = Some (map_start_time m).
Proof.
  intros Hm. unfold max_start_time. by rewrite (registered_maps_singleton _ _ _ Hm).
Qed.

(** The first registration in a dataset without maps, as the update that
    follows finds the world. *)
Lemma register_map_in_empty_dataset dbmi stds_type map_type map dbif w m c cid name ty mids :
  map_rows w !! map = Some m ->
  self w = c ->
  stds_rows w !! cid = Some c ->
  s_id c = Some cid ->
  s_name c = Some name ->
  s_mapset c = Some (map_mapset m) ->
  s_ttype c = Some ty ->
  match s_map_register c with
  | Some st => st = update_register_name map_type name (map_mapset m)
  | None => True
  end ->
  rows_before w (s_map_register c) (update_register_name map_type name (map_mapset m)) [] ->
  rows_before w (map_stds_register m) (map_register_name stds_type w m) mids ->
  map_register_name stds_type w m <> update_register_name map_type name (map_mapset m) ->
  cid ∉ mids ->
  fail_in w = None ->
  returns true (fun w1 =>
    fail_in w1 = None /\
    self w1 = with_s_map_register
                (Some (update_register_name map_type name (map_mapset m))) c /\
    (exists r1, stds_rows w1 !! cid = Some r1 /\ s_id r1 = Some cid /\
                s_ttype r1 = Some ty /\
                s_map_register r1 = Some (update_register_name map_type name (map_mapset m)) /\
                s_name r1 = Some name /\ s_mapset r1 = Some (map_mapset m) /\
                s_map_time r1 = s_map_time c) /\
    registers w1 !! update_register_name map_type name (map_mapset m) = Some [map] /\
    registers w1 !! map_register_name stds_type w m = Some (mids ++ [cid]) /\
    map_rows w1 !! map =
      Some (with_map_stds_register (Some (map_register_name stds_type w m)) m))
  (register_map dbmi stds_type map_type map dbif w).
Proof.
  intros Hm Hself Hc Hid Hname Hms Hty Hst Hsrows Hmrows Hne Hcid Hf.
  set (st := update_register_name map_type name (map_mapset m)) in *.
  set (mt := map_register_name stds_type w m) in *.
  assert (stds_register_name map_type (self w) = st) as Hstn.
  { rewrite Hself. unfold stds_register_name.
    destruct (s_map_register c) as [st'|]; [done|].
    rewrite Hname, Hms. cbn [default]. subst st. by rewrite update_register_name_eq. }
  assert (st <> "") as Hst_ne by apply update_register_name_ne.
  eapply returns_mono.
  { eapply (register_map_new dbmi stds_type map_type map dbif w m cid name mids []);
      rewrite ?Hself, ?Hstn; try done.
    - rewrite <- Hself, Hstn. by rewrite Hself.
    - fold mt. rewrite <- Hself, Hstn. done.
    - intros Heq. rewrite Heq in Hst. by subst st.
    - apply not_elem_of_nil. }
  fold mt. rewrite Hstn.
  intros w1 (Hreg1 & Hmaps1 & Hself1 & Hstds1 & Hf1 & _).
  split_and!.
  - done.
  - by rewrite Hself1, Hself.
  - rewrite Hstds1, Hself. destruct (s_map_register c) as [st'|] eqn:Hcst.
    + exists c. subst st'. done.
    + eexists. rewrite lookup_alter_eq, Hc. cbn [fmap option_fmap option_map].
      split; [reflexivity|].
      rewrite s_id_update_metadata, s_ttype_update_metadata,
        s_name_update_metadata, s_mapset_update_metadata,
        (s_map_register_update_metadata _ _ st) by done.
      split_and!; try done.
      unfold update_metadata. cbn [s_map_register with_s_map_register s_number_of_maps].
      by destruct (s_number_of_maps c).
  - rewrite Hreg1. apply lookup_insert_eq.
  - rewrite Hreg1. rewrite lookup_insert_ne by done. apply lookup_insert_eq.
  - rewrite Hmaps1. apply lookup_insert_eq.
Qed.

(** C8: a map is registered in a dataset without maps and without extent, the
    dataset is updated, the map is unregistered and the dataset is updated
    again.  When the first update can read the start time of the map back,
    every call returns, and the extent and the map time of the dataset, in its
    record and in the object, are again those it had before the map was
    registered.  With sqlite3 and a map that has an end time the first update
    converts the start time it reads back: for a dataset of relative time
    that is an AttributeError, for a time stamp with a fraction of a second a
    ValueError, and the update ends there, the registers being as the
    registration left them. *)
Theorem register_update_unregister_update dbmi stds_type map_type map
    dbif1 dbif2 dbif3 dbif4 w m c cid name ty mids :
  map_rows w !! map = Some m ->
  self w = c ->
  stds_rows w !! cid = Some c ->
  s_id c = Some cid ->
  s_name c = Some name ->
  s_mapset c = Some (map_mapset m) ->
  s_ttype c = Some ty ->
  extent c = (None, None, None) ->
  match s_map_register c with
  | Some st => st = update_register_name map_type name (map_mapset m)
  | None => True
  end ->
  rows_before w (s_map_register c) (update_register_name map_type name (map_mapset m)) [] ->
  rows_before w (map_stds_register m) (map_register_name stds_type w m) mids ->
  map_register_name stds_type w m <> update_register_name map_type name (map_mapset m) ->
  cid ∉ mids ->
  fail_in w = None ->
  (map_readable dbmi ty m ->
   returns true (fun w1 =>
     returns tt (fun w2 =>
       returns None (fun w3 =>
         returns tt (fun w4 =>
           exists c', stds_rows w4 !! cid = Some c' /\ self w4 = c' /\
                      extent c' = extent c)
         (update_from_registered_maps dbmi map_type dbif4 w3))
       (unregister_map map_type map dbif3 w2))
     (update_from_registered_maps dbmi map_type dbif2 w1))
   (register_map dbmi stds_type map_type map dbif1 w)) /\
  (dbmi = sqlite3 ->
   is_Some (map_end_time m) ->
   (ty = absolute -> microsecond (map_start_time m) <> 0) ->
   returns true (fun w1 =>
     raises (match ty with absolute => ValueError | relative => AttributeError end)
       (fun w2 => registers w2 = registers w1 /\ map_rows w2 = map_rows w1)
       (update_from_registered_maps dbmi map_type dbif2 w1))
   (register_map dbmi stds_type map_type map dbif1 w)).
Proof.
  intros Hm Hself Hc Hid Hname Hms Hty Hext Hst Hsrows Hmrows Hne Hcid Hf.
  set (st := update_register_name map_type name (map_mapset m)) in *.
  set (mt := map_register_name stds_type w m) in *.
  assert (st <> "") as Hst_ne by apply update_register_name_ne.
  split.
  - intros Hread.
    eapply returns_mono; [by eapply (register_map_in_empty_dataset _ _ _ _ _ _ _ c)|].
    fold st mt.
    intros w1 (Hf1 & Hself1 & (r1 & Hr1 & Hr1id & Hr1ty & Hr1st & Hr1name & Hr1ms & _) &
               Hst1 & Hmt1 & Hm1).
    set (m' := with_map_stds_register (Some mt) m) in *.
    eapply returns_mono.
    { eapply (update_from_registered_maps_spec dbmi map_type dbif2 w1 cid name
                (map_mapset m) st r1 ty [map]); rewrite ?Hself1; try done.
      unfold start_time_readable.
      rewrite (max_end_time_singleton _ _ _ Hm1), (max_start_time_singleton _ _ _ Hm1).
      exact Hread. }
    intros w2 (Hstds2 & Hself2 & Hreg2 & Hmaps2 & Hf2 & _).
    eapply returns_mono.
    { eapply (unregister_map_registered map_type map dbif3 w2 m' mt (mids ++ [cid]) cid st
                [map]); rewrite ?Hself2, ?Hreg2, ?Hmaps2; try done.
      apply elem_of_app. right. left. }
    intros w3 (Hreg3 & Hmaps3 & Hstds3 & Hself3 & Hf3 & _).
    assert (filter (fun i => i <> map) [map] = []) as Hfilter.
    { rewrite filter_cons_False; [done|]. intros H. by apply H. }
    rewrite Hfilter in Hreg3.
    eapply returns_mono.
    { eapply (update_from_registered_maps_spec dbmi map_type dbif4 w3 cid name
                (map_mapset m) st (updated_record w1 [map] r1) ty []);
        rewrite ?Hself3, ?Hself2, ?Hstds3, ?Hstds2; try done.
      - fold st. rewrite Hreg3. apply lookup_insert_eq.
      - apply lookup_insert_eq.
      - apply start_time_readable_None. unfold max_end_time.
        by rewrite registered_maps_nil. }
    intros w4 (Hstds4 & Hself4 & _).
    eexists. split_and!.
    + rewrite Hstds4. apply lookup_insert_eq.
    + done.
    + rewrite Hext. apply extent_updated_empty.
  - intros Hdb [e He] Hbad.
    eapply returns_mono; [by eapply (register_map_in_empty_dataset _ _ _ _ _ _ _ c)|].
    fold st mt.
    intros w1 (Hf1 & Hself1 & (r1 & Hr1 & Hr1id & Hr1ty & Hr1st & Hr1name & Hr1ms & _) &
               Hst1 & Hmt1 & Hm1).
    eapply raises_mono.
    { eapply (update_from_registered_maps_unreadable dbmi map_type dbif2 w1 cid name
                (map_mapset m) st r1 ty [map] e (map_start_time m));
        rewrite ?Hself1; try done.
      - by rewrite (max_end_time_singleton _ _ _ Hm1).
      - by rewrite (max_start_time_singleton _ _ _ Hm1). }
    cbn beta. tauto.
Qed.

(** ** get_temporal_relation_matrix *)

#[global] Instance start_time_le_total : Total start_time_le.
Proof. intros p q. unfold start_time_le. lia. Qed.

Lemma temporal_relation_self a : temporal_relation a a = "equal".
Proof. unfold temporal_relation. by rewrite bool_decide_eq_true_2. Qed.

Lemma get_registered_maps_start_time c w st sids :
  s_map_register (self w) = Some st -> st <> "" ->
  registers w !! st = Some sids -> fail_in w = None ->
  get_registered_maps (Some "id") None (Some "start_time") (Some c) w =
    (Return (Some ((fun i => [Text i]) <$>
                     (merge_sort start_time_le (registered_maps w sids)).*1)), w).
Proof.
  intros Hst Hne Hsids Hf. unfold get_registered_maps. simp.
  rewrite (if_true_Some _ Hne).
  erewrite bind_Return; [reflexivity|].
  apply try_except_raise_Return.
  erewrite bind_Return; [reflexivity|].
  apply execute_one; [done|].
  cbn [run]. unfold with_table. rewrite Hsids. simp.
  rewrite !bool_decide_eq_true_2 by done. simp. by rewrite <- list_fmap_compose.
Qed.

Lemma select_objects c w (l : list map_object) :
  Forall (fun p => map_rows w !! p.1 = Some p.2) l ->
  for_each_append ((fun i => [Text i]) <$> l.*1)
    (fun row => let! map := row_id row in
                let! m := map_select map c in
                ret (map, m)) w = (Return l, w).
Proof.
  induction 1 as [|[map m] l Hm Hl IH]; [reflexivity|].
  cbn [fmap list_fmap for_each_append fst]. simp. cbn [fst snd] in Hm.
  step map_select_Some.
  change (list_fmap _ _ ?f (list_fmap _ _ ?g l)) with (f <$> (g <$> l)).
  erewrite bind_Return; [|exact IH]. reflexivity.
Qed.

Lemma get_registered_maps_as_objects_start_time dbif w st sids :
  s_map_register (self w) = Some st -> st <> "" ->
  registers w !! st = Some sids -> fail_in w = None ->
  returns (merge_sort start_time_le (registered_maps w sids))
    (fun w' => registers w' = registers w /\ map_rows w' = map_rows w /\
               stds_rows w' = stds_rows w /\ self w' = self w /\
               fail_in w' = None /\ conns_released dbif w w')
    (get_registered_maps_as_objects None (Some "start_time") dbif w).
Proof.
  intros Hst Hne Hsids Hf. unfold get_registered_maps_as_objects, conns_released.
  assert (forall W, map_rows W = map_rows w ->
            Forall (fun p : map_object => map_rows W !! p.1 = Some p.2)
              (merge_sort start_time_le (registered_maps w sids))) as Hall.
  { intros W HW. apply Forall_forall. intros [map m] Hin.
    rewrite merge_sort_Permutation in Hin.
    apply elem_of_registered_maps in Hin as [Hm _]. by rewrite HW. }
  destruct dbif as [c|]; simp.
  - erewrite bind_Return; [|by apply (get_registered_maps_start_time c w st sids)]. simp.
    erewrite bind_Return; [|by apply select_objects, Hall]. simp. by finish.
  - erewrite bind_Return;
      [|apply (get_registered_maps_start_time _ _ st sids); by simp].
    rewrite (registered_maps_ext w) by done. simp.
    erewrite bind_Return; [|by apply select_objects, Hall]. simp. finish.
    by rewrite conns_app_close.
Qed.

(** The matrix of the maps [maps]: the row of the ids, then one row of
    relations per map. *)
Lemma get_temporal_relation_matrix_eq dbif w st sids :
  s_map_register (self w) = Some st -> st <> "" ->
  registers w !! st = Some sids -> fail_in w = None ->
  let maps := merge_sort start_time_le (registered_maps w sids) in
  returns (maps.*1 :: ((fun a => (fun b => temporal_relation a b) <$> maps) <$> maps))
    (fun w' => registers w' = registers w /\ map_rows w' = map_rows w /\
               conns_released dbif w w')
    (get_temporal_relation_matrix dbif w).
Proof.
  intros Hst Hne Hsids Hf maps. unfold get_temporal_relation_matrix, conns_released.
  destruct dbif as [c|]; simp.
  - eapply returns_bind;
      [by apply (get_registered_maps_as_objects_start_time (Some c) w st sids)|].
    intros w' (Hreg & Hmaps & _ & _ & _ & Hc). unfold conns_released in Hc.
    simp. by finish.
  - eapply returns_bind.
    { apply (get_registered_maps_as_objects_start_time (Some (length (conns w))) _ st sids);
        by simp. }
    rewrite (registered_maps_ext w) by done. fold maps.
    intros w' (Hreg & Hmaps & _ & _ & _ & Hc). unfold conns_released in Hc.
    norm in Hreg. norm in Hmaps. norm in Hc.
    simp. finish. by rewrite conns_app_close.
Qed.

(** C6, as amended: for a dataset with n registered maps the matrix has n + 1
    rows of n entries each.  Row 0 holds the ids of the maps in ascending
    order of start time; there is no column of ids.  Row i + 1 holds in its
    entry j the temporal relation of map i to map j, counted from 0 in that
    order, and the relation of a map to itself is "equal". *)
Theorem relation_matrix_layout dbif w st sids :
  s_map_register (self w) = Some st -> st <> "" ->
  registers w !! st = Some sids -> fail_in w = None ->
  exists maps matrix,
    returns matrix (fun w' => conns_released dbif w w')
      (get_temporal_relation_matrix dbif w) /\
    maps ≡ₚ registered_maps w sids /\
    Sorted start_time_le maps /\
    length matrix = S (length maps) /\
    Forall (fun row => length row = length maps) matrix /\
    matrix !! 0%nat = Some maps.*1 /\
    (forall i j a b, maps !! i = Some a -> maps !! j = Some b ->
       matrix !! S i ≫= (fun row => row !! j) = Some (temporal_relation a b)) /\
    (forall i a, maps !! i = Some a ->
       matrix !! S i ≫= (fun row => row !! i) = Some "equal").
Proof.
  intros Hst Hne Hsids Hf.
  set (maps := merge_sort start_time_le (registered_maps w sids)).
  exists maps, (maps.*1 :: ((fun a => (fun b => temporal_relation a b) <$> maps) <$> maps)).
  assert (forall i j a b, maps !! i = Some a -> maps !! j = Some b ->
            (maps.*1 :: ((fun a => (fun b => temporal_relation a b) <$> maps) <$> maps))
              !! S i ≫= (fun row => row !! j) = Some (temporal_relation a b)) as Hcell.
  { intros i j a b Ha Hb. rewrite lookup_cons_ne_0 by done. cbn [Nat.pred].
    unfold map_object in *. rewrite list_lookup_fmap, Ha. cbn [fmap option_fmap option_map mbind option_bind].
    by rewrite list_lookup_fmap, Hb. }
  split_and!.
  - eapply returns_mono; [by apply (get_temporal_relation_matrix_eq dbif w st sids)|].
    by intros w' (_ & _ & ?).
  - apply merge_sort_Permutation.
  - apply Sorted_merge_sort, _.
  - cbn [length]. by rewrite length_fmap.
  - apply Forall_cons. split; [by rewrite length_fmap|].
    apply Forall_fmap, Forall_forall. intros a _. cbn. by rewrite length_fmap.
  - done.
  - exact Hcell.
  - intros i a Ha. rewrite (Hcell i i a a) by done. by rewrite temporal_relation_self.
Qed.

(** * unregister_map and the connections: C5, C9, C10 *)

(** C5: what unregister_map gives for a pair, the registers of the map and of
    the dataset being there.  For a pair that the register of the map does not
    hold, the call ends in a TypeError, raised by the message of the warning,
    whose format has one place for two values: nothing is deleted and no
    False is returned.  For a pair that it holds, the id of the dataset leaves
    the register of the map, the id of the map leaves the register of the
    dataset, and the value is None: the method ends without a return. *)
Theorem unregister_map_value map_type map dbif w m mt mids cid st sids :
  map_rows w !! map = Some m ->
  map_stds_register m = Some mt ->
  registers w !! mt = Some mids ->
  s_id (self w) = Some cid ->
  s_map_register (self w) = Some st ->
  registers w !! st = Some sids ->
  mt <> st ->
  fail_in w = None ->
  (cid ∉ mids ->
   raises TypeError (fun w' => registers w' = registers w)
     (unregister_map map_type map dbif w)) /\
  (cid ∈ mids ->
   returns None (fun w' =>
     registers w' !! mt = Some (filter (fun i => i <> cid) mids) /\
     registers w' !! st = Some (filter (fun i => i <> map) sids))
     (unregister_map map_type map dbif w)).
Proof.
  intros Hm Hmt Hmids Hid Hst Hsids Hne Hf. split.
  - intros Hni. eapply raises_mono; [by eapply unregister_map_not_registered|].
    cbn beta. tauto.
  - intros Hin. eapply returns_mono; [by eapply unregister_map_registered|].
    cbn beta. intros w' (-> & _). split.
    + rewrite lookup_insert_ne by done. apply lookup_insert_eq.
    + apply lookup_insert_eq.
Qed.

(** C10: the register of the dataset holds the map and the register of the
    map does not hold the dataset.  unregister_map reads the register of the
    map only, deletes nothing, and the row of the map stays in the register
    of the dataset; the call does not return False: it ends in the TypeError
    of the message of the warning. *)
Theorem unregister_map_stale_row map_type map dbif w m mt mids cid st sids :
  map_rows w !! map = Some m ->
  map_stds_register m = Some mt ->
  registers w !! mt = Some mids ->
  s_id (self w) = Some cid ->
  s_map_register (self w) = Some st ->
  registers w !! st = Some sids ->
  cid ∉ mids ->
  map ∈ sids ->
  fail_in w = None ->
  raises TypeError (fun w' =>
    registers w' = registers w /\
    exists sids', registers w' !! st = Some sids' /\ map ∈ sids')
  (unregister_map map_type map dbif w).
Proof.
  intros Hm Hmt Hmids Hid Hst Hsids Hni Hin Hf.
  eapply raises_mono; [by eapply unregister_map_not_registered|].
  cbn beta. intros w' (Hreg & _). split; [done|].
  exists sids. by rewrite Hreg.
Qed.

(** C9: three ways out of register_map and unregister_map on which the
    connections are not as the methods leave them elsewhere.  The TypeError
    of the warning of unregister_map comes before the close: the connection
    the method opened stays open.  An insert of register_map on which the
    back end fails is outside any handler: the connection the method opened
    stays open.  Before core.fatal both methods close the connection without
    asking whose it is: the connection of the caller is closed. *)
Theorem connections_on_exit dbmi stds_type map_type map w m mt mids cid st sids :
  map_rows w !! map = Some m ->
  map_stds_register m = Some mt ->
  s_id (self w) = Some cid ->
  s_mapset (self w) = Some (map_mapset m) ->
  s_map_register (self w) = Some st ->
  st <> "" ->
  registers w !! mt = Some mids ->
  registers w !! st = Some sids ->
  mt <> st ->
  cid ∉ mids ->
  map ∉ sids ->
  (fail_in w = None ->
   raises TypeError (fun w' => conns w' = conns w ++ [true])
     (unregister_map map_type map None w)) /\
  (fail_in w = Some 3%nat ->
   raises DatabaseError (fun w' => conns w' = conns w ++ [true])
     (register_map dbmi stds_type map_type map None w)) /\
  (forall map' c, map_rows w !! map' = None ->
   raises SystemExit (fun w' => conns w' = <[c := false]> (conns w))
     (register_map dbmi stds_type map_type map' (Some c) w) /\
   raises SystemExit (fun w' => conns w' = <[c := false]> (conns w))
     (unregister_map map_type map' (Some c) w)).
Proof.
  intros Hm Hmt Hid Hms Hst Hne Hmids Hsids Hneq Hcid Hmap.
  pose proof (if_true_Some _ Hne) as Htrue.
  split_and!.
  - intros Hf. eapply raises_mono; [by eapply unregister_map_not_registered|].
    cbn beta. tauto.
  - intros Hf. unfold register_map. simp.
    step map_is_in_db_true; step_format; step map_select_Some.
    rewrite bool_decide_eq_true_2 by done; simp.
    step execute_SELECT_id_later.
    rewrite (fetchone_SELECT_id_not_elem _ _ Hmap); simp.
    step execute_SELECT_id_later.
    rewrite (fetchone_SELECT_id_not_elem _ _ Hcid); simp.
    step execute_INSERT_later.
    (erewrite bind_Raise; [|apply execute_fails; side]); by finish.
  - intros map' c Hnone. split.
    + unfold register_map. simp. step map_is_in_db_false. by finish.
    + unfold unregister_map. simp. step map_is_in_db_false. step_format. by finish.
Qed.

(** * The theorems on the example database *)

(** A hypothesis on the example database holds by evaluation. *)
Ltac evaluated := first [ by vm_compute | compute_done ].

(** C1 on the example: [a] has no end time, and the dataset that holds [a]
    alone becomes a point in time that ends when [a] starts. *)
Lemma update_without_end_time_witness :
  returns tt (fun w' =>
    exists r', stds_rows w' !! "c@m" = Some r' /\ self w' = r' /\
      s_end_time r' = max_start_time world_a ["a@m"] /\
      s_map_time r' = if bool_decide (0 < length (registered_maps world_a ["a@m"]))%nat
                      then Some point else None)
  (update_from_registered_maps sqlite3 "raster" None world_a).
Proof.
  refine (proj1 (update_without_end_time sqlite3 "raster" None world_a "c@m" "c" "m"
                   "c_m_raster_register" (self world_a) absolute ["a@m"]
                   _ _ _ _ _ _ _ _ _ _) _); evaluated.
Defined.

(** C1 as stated fails on the example: the end time stored for the dataset
    that holds [b] alone is None, and the update makes it an interval that
    ends when [b] ends, second 9, not a point in time that ends at the
    maximum start time, second 5. *)
Lemma update_of_unset_end_time_is_interval :
  (stds_rows world_b !! "c@m") ≫= s_end_time = None /\
  s_end_time (self world_b) = None /\
  max_start_time world_b ["b@m"] = Some (seconds 5) /\
  update_of_world_b.1 = Return tt /\
  (stds_rows update_of_world_b.2 !! "c@m") ≫= s_map_time = Some interval /\
  (stds_rows update_of_world_b.2 !! "c@m") ≫= s_end_time = Some (seconds 9).
Proof. by vm_compute. Qed.

(** C2 on the example: [b] starts at second 5 and ends at second 9, and the
    end time of the dataset that holds [b] alone is second 9. *)
Lemma update_with_end_time_witness :
  returns tt (fun w' =>
    exists r' s, stds_rows w' !! "c@m" = Some r' /\ self w' = r' /\
      max_start_time world_b ["b@m"] = Some s /\
      (seconds 9 < s -> s_map_time r' = Some mixed /\ s_end_time r' = Some s) /\
      (s <= seconds 9 -> s_map_time r' = Some interval /\ s_end_time r' = Some (seconds 9)))
  (update_from_registered_maps sqlite3 "raster" None world_b).
Proof.
  apply (update_with_end_time sqlite3 "raster" None world_b "c@m" "c" "m"
           "c_m_raster_register" (self world_b) absolute ["b@m"] (seconds 9)); evaluated.
Defined.

(** C2 as stated fails on the example: the end time stored for the dataset
    that holds [a] alone is second 100, which is not before the maximum start
    time, second 1; the update does not leave it an interval that ends at
    second 100: the first script replaces the end time by None, [a] having no
    end time, and the dataset becomes a point in time that ends at second
    1. *)
Lemma update_of_set_end_time_is_point :
  (stds_rows world_a_ended !! "c@m") ≫= s_end_time = Some (seconds 100) /\
  s_end_time (self world_a_ended) = Some (seconds 100) /\
  length (registered_maps world_a_ended ["a@m"]) = 1%nat /\
  max_start_time world_a_ended ["a@m"] = Some (seconds 1) /\
  update_of_world_a_ended.1 = Return tt /\
  (stds_rows update_of_world_a_ended.2 !! "c@m") ≫= s_map_time = Some point /\
  (stds_rows update_of_world_a_ended.2 !! "c@m") ≫= s_end_time = Some (seconds 1).
Proof. by vm_compute. Qed.

(** C3 on the example: [a] is registered twice in the dataset without maps. *)
Lemma register_map_twice_witness :
  returns true (fun w1 =>
    (exists m1 mt mids1, map_rows w1 !! "a@m" = Some m1 /\ map_stds_register m1 = Some mt /\
       registers w1 !! mt = Some mids1 /\ rows_of "c@m" mids1 = 1%nat) /\
    (exists st sids1, s_map_register (self w1) = Some st /\
       registers w1 !! st = Some sids1 /\ rows_of "a@m" sids1 = 1%nat) /\
    returns false (fun w2 => registers w2 = registers w1)
      (register_map sqlite3 "strds" "raster" "a@m" None w1))
  (register_map sqlite3 "strds" "raster" "a@m" None world_0).
Proof.
  apply (register_map_twice sqlite3 "strds" "raster" "a@m" None None world_0 map_a
           "c@m" "c" [] []); evaluated.
Defined.

(** C4 on the example: the back end fails on the insert into the register of
    the dataset. *)
Lemma register_map_insert_fails_witness :
  raises DatabaseError (fun w' =>
    registers w' = <["map_u1_strds_register" := [] ++ ["c@m"]]>
                     (registers (failing_in 3 (with_connection world_a_unregistered))))
  registration_cut_short.
Proof.
  apply (register_map_insert_fails sqlite3 "strds" "raster" "a@m" (Some 0%nat)
           (failing_in 3 (with_connection world_a_unregistered)) map_a_registered "c@m"
           "map_u1_strds_register" [] "c_m_raster_register" []); evaluated.
Defined.

(** C4 as stated fails on the example: the call raises, the id of the dataset
    is in the register of the map, which did not hold it before, the register
    of the dataset is without the map, and the connection of the caller is
    open on that state. *)
Lemma registration_cut_short_keeps_first_insert :
  registers (failing_in 3 (with_connection world_a_unregistered)) !! "map_u1_strds_register"
    = Some [] /\
  registration_cut_short.1 = Raise DatabaseError /\
  registers registration_cut_short.2 !! "map_u1_strds_register" = Some ["c@m"] /\
  registers registration_cut_short.2 !! "c_m_raster_register" = Some [] /\
  conns registration_cut_short.2 = [true].
Proof. by vm_compute. Qed.

(** C5 on the example: [a] is unregistered from the dataset that does not
    hold it, and from the dataset that holds it. *)
Lemma unregister_map_value_witness :
  raises TypeError (fun w' => registers w' = registers world_a_unregistered)
    (unregister_map "raster" "a@m" None world_a_unregistered) /\
  returns None (fun w' =>
    registers w' !! "map_u1_strds_register" = Some (filter (fun i => i <> "c@m") ["c@m"]) /\
    registers w' !! "c_m_raster_register" = Some (filter (fun i => i <> "a@m") ["a@m"]))
    (unregister_map "raster" "a@m" None world_a).
Proof.
  split.
  - apply (unregister_map_value "raster" "a@m" None world_a_unregistered map_a_registered
             "map_u1_strds_register" [] "c@m" "c_m_raster_register" []); evaluated.
  - apply (unregister_map_value "raster" "a@m" None world_a map_a_registered
             "map_u1_strds_register" ["c@m"] "c@m" "c_m_raster_register" ["a@m"]); evaluated.
Defined.

(** C6 on the example: the matrix of the dataset that holds [a] and [b]. *)
Lemma relation_matrix_layout_witness :
  exists maps matrix,
    returns matrix (fun w' => conns_released None world_ab w')
      (get_temporal_relation_matrix None world_ab) /\
    maps ≡ₚ registered_maps world_ab ["a@m"; "b@m"] /\ Sorted start_time_le maps /\
    length matrix = S (length maps) /\
    Forall (fun row => length row = length maps) matrix /\
    matrix !! 0%nat = Some maps.*1 /\
    (forall i j a b, maps !! i = Some a -> maps !! j = Some b ->
       matrix !! S i ≫= (fun row => row !! j) = Some (temporal_relation a b)) /\
    (forall i a, maps !! i = Some a -> matrix !! S i ≫= (fun row => row !! i) = Some "equal").
Proof.
  apply (relation_matrix_layout None world_ab "c_m_raster_register" ["a@m"; "b@m"]);
    evaluated.
Defined.

(** C6 as stated fails on the example: the matrix of two maps has three rows
    of two cells, so it is not square, and the first cell of the rows after
    the first is a relation, not the id of a map. *)
Lemma relation_matrix_of_two_maps :
  (get_temporal_relation_matrix None world_ab).1 =
    Return [["a@m"; "b@m"]; ["equal"; "before"]; ["after"; "equal"]] /\
  not (exists matrix, (get_temporal_relation_matrix None world_ab).1 = Return matrix /\
       Forall (fun row => length row = length matrix) matrix).
Proof.
  split; [by vm_compute|].
  intros (matrix & H & Hsquare). vm_compute in H. injection H as <-.
  apply Forall_cons in Hsquare as [Hrow _]. vm_compute in Hrow. discriminate Hrow.
Qed.

(** The two registers of the example hold the same pairs. *)
Lemma world_ab_registers_agree :
  registers_agree world_ab "c@m" "c_m_raster_register" ["a@m"; "b@m"].
Proof.
  assert (forall map m, map_rows world_ab !! map = Some m ->
            (map = "a@m" /\ m = map_a_registered) \/
            (map = "b@m" /\ m = with_map_stds_register (Some "map_u2_strds_register") map_b))
    as Hrows.
  { intros map m H. apply elem_of_map_to_list in H. vm_compute in H.
    apply elem_of_cons in H as [H|H]; [left; by inversion H|].
    apply elem_of_cons in H as [H|H]; [right; by inversion H|].
    by apply elem_of_nil in H. }
  split_and!.
  - intros map m Hm _.
    destruct (Hrows _ _ Hm) as [[-> ->]|[-> ->]]; clear Hm.
    + exists "map_u1_strds_register", ["c@m"]. split_and!; evaluated.
    + exists "map_u2_strds_register", ["c@m"]. split_and!; evaluated.
  - intros map1 map2 m1 m2 _ _ Hm1 Hm2 Heq.
    destruct (Hrows _ _ Hm1) as [[-> ->]|[-> ->]];
      destruct (Hrows _ _ Hm2) as [[-> ->]|[-> ->]];
      clear Hm1 Hm2; first [ reflexivity | vm_compute in Heq; discriminate Heq ].
  - intros map m mt mids Hm _ _ _.
    destruct (Hrows _ _ Hm) as [[-> ->]|[-> ->]]; clear Hm; evaluated.
Qed.

(** C7 on the example: the dataset that holds [a] and [b] is deleted. *)
Lemma delete_unregisters_and_drops_witness :
  returns tt (fun w' =>
    map_rows w' = map_rows world_ab /\
    (forall map m mt mids, map_rows w' !! map = Some m -> map_stds_register m = Some mt ->
       registers w' !! mt = Some mids -> "c@m" ∉ mids) /\
    registers w' !! "c_m_raster_register" = None /\
    stds_rows w' !! "c@m" = None /\
    self w' = reset None /\
    conns_released None world_ab w')
  (delete "raster" None world_ab).
Proof.
  apply (delete_unregisters_and_drops "raster" None world_ab "c@m" (self world_ab)
           "c_m_raster_register" ["a@m"; "b@m"]);
    first [ exact world_ab_registers_agree | evaluated ].
Defined.

(** C8 on the example: with absolute time [b] is registered in the dataset
    without maps and unregistered, the dataset being updated after each; with
    relative time the first update ends in an AttributeError. *)
Lemma register_update_unregister_update_witness :
  returns true (fun w1 =>
    returns tt (fun w2 =>
      returns None (fun w3 =>
        returns tt (fun w4 =>
          exists c', stds_rows w4 !! "c@m" = Some c' /\ self w4 = c' /\
                     extent c' = extent dataset_c)
        (update_from_registered_maps sqlite3 "raster" None w3))
      (unregister_map "raster" "b@m" None w2))
    (update_from_registered_maps sqlite3 "raster" None w1))
  (register_map sqlite3 "strds" "raster" "b@m" None world_0) /\
  returns true (fun w1 =>
    raises AttributeError
      (fun w2 => registers w2 = registers w1 /\ map_rows w2 = map_rows w1)
      (update_from_registered_maps sqlite3 "raster" None w1))
  (register_map sqlite3 "strds" "raster" "b@m" None world_relative).
Proof.
  split.
  - refine (proj1 (register_update_unregister_update sqlite3 "strds" "raster" "b@m"
                     None None None None world_0 map_b dataset_c "c@m" "c" absolute []
                     _ _ _ _ _ _ _ _ _ _ _ _ _ _) _); evaluated.
  - refine (proj2 (register_update_unregister_update sqlite3 "strds" "raster" "b@m"
                     None None None None world_relative map_b dataset_r "c@m" "c" relative []
                     _ _ _ _ _ _ _ _ _ _ _ _ _ _) _ _ _); evaluated.
Defined.

(** C9 on the example: the connections after the three ways out. *)
Lemma connections_on_exit_witness :
  raises TypeError (fun w' => conns w' = conns world_a_unregistered ++ [true])
    (unregister_map "raster" "a@m" None world_a_unregistered) /\
  raises SystemExit (fun w' =>
    conns w' = <[0%nat := false]> (conns (with_connection world_a_unregistered)))
    (register_map sqlite3 "strds" "raster" "z@m" (Some 0%nat)
       (with_connection world_a_unregistered)).
Proof.
  split.
  - refine (proj1 (connections_on_exit sqlite3 "strds" "raster" "a@m" world_a_unregistered
             map_a_registered "map_u1_strds_register" [] "c@m" "c_m_raster_register" []
             _ _ _ _ _ _ _ _ _ _ _) _); evaluated.
  - refine (proj1 (proj2 (proj2 (connections_on_exit sqlite3 "strds" "raster" "a@m"
             (with_connection world_a_unregistered)
             map_a_registered "map_u1_strds_register" [] "c@m" "c_m_raster_register" []
             _ _ _ _ _ _ _ _ _ _ _)) "z@m" 0%nat _)); evaluated.
Defined.

(** C10 on the example: the register of the dataset holds [a], the register
    of [a] does not hold the dataset. *)
Lemma unregister_map_stale_row_witness :
  raises TypeError (fun w' =>
    registers w' = registers world_stale /\
    exists sids', registers w' !! "c_m_raster_register" = Some sids' /\ "a@m" ∈ sids')
  (unregister_map "raster" "a@m" None world_stale).
Proof.
  apply (unregister_map_stale_row "raster" "a@m" None world_stale map_a_registered
           "map_u1_strds_register" [] "c@m" "c_m_raster_register" ["a@m"]); evaluated.
Defined.

(** * Further properties of the methods *)

(** ** The ways out of register_map and unregister_map before any statement *)

(** X1: register_map of a map that has no record in the temporal database: the
    error is printed and the program ends in core.fatal; no register and no
    record is touched. *)
Theorem register_map_missing_map dbmi stds_type map_type map dbif w :
  map_rows w !! map = None ->
  raises SystemExit (fun w' =>
    registers w' = registers w /\ map_rows w' = map_rows w /\
    stds_rows w' = stds_rows w /\ self w' = self w /\
    messages w' = messages w ++
      [(error, "Only maps with absolute or relative valid time can be registered")])
  (register_map dbmi stds_type map_type map dbif w).
Proof.
  intros Hm. unfold register_map.
  destruct dbif as [c|]; simp; step map_is_in_db_false; by finish.
Qed.

(** X2: register_map of a map of another mapset than the dataset: the error is
    printed and the program ends in core.fatal before any statement is sent;
    no register and no record is touched. *)
Theorem register_map_other_mapset dbmi stds_type map_type map dbif w m :
  map_rows w !! map = Some m ->
  s_mapset (self w) <> Some (map_mapset m) ->
  raises SystemExit (fun w' =>
    registers w' = registers w /\ map_rows w' = map_rows w /\
    stds_rows w' = stds_rows w /\ self w' = self w /\ fail_in w' = fail_in w /\
    last (messages w') = Some (error, "Only maps from the same mapset can be registered"))
  (register_map dbmi stds_type map_type map dbif w).
Proof.
  intros Hm Hms. unfold register_map.
  destruct dbif as [c|]; simp;
    step map_is_in_db_true; step_format; step map_select_Some;
    rewrite bool_decide_eq_false_2 by done; simp; finish;
    split_and!; try done; by rewrite last_snoc.
Qed.

(** X3: unregister_map of a map that has no record in the temporal database: the
    error is printed and the program ends in core.fatal; no register and no
    record is touched. *)
Theorem unregister_map_missing_map map_type map dbif w :
  map_rows w !! map = None ->
  raises SystemExit (fun w' =>
    registers w' = registers w /\ map_rows w' = map_rows w /\
    stds_rows w' = stds_rows w /\ self w' = self w /\
    exists msg, py_format "Unable to find map <%s> in temporal database" [map] = Some msg /\
                messages w' = messages w ++ [(error, msg)])
  (unregister_map map_type map dbif w).
Proof.
  intros Hm. unfold unregister_map.
  destruct dbif as [c|]; simp; step map_is_in_db_false; step_format; finish;
    split_and!; try done; by eexists.
Qed.

(** X4: unregister_map of a map that was never registered anywhere, so that its
    record names no register: the text of the first statement is the sum of a
    string and None, a TypeError.  No statement is sent, no register and no
    record is touched, and a connection the method opened stays open. *)
Theorem unregister_map_no_register map_type map dbif w m :
  map_rows w !! map = Some m ->
  map_stds_register m = None ->
  raises TypeError (fun w' =>
    registers w' = registers w /\ map_rows w' = map_rows w /\
    stds_rows w' = stds_rows w /\ self w' = self w /\ fail_in w' = fail_in w /\
    conns w' = match dbif with Some _ => conns w | None => conns w ++ [true] end)
  (unregister_map map_type map dbif w).
Proof.
  intros Hm Hmt. unfold unregister_map.
  destruct dbif as [c|]; simp;
    step map_is_in_db_true; step_format; step map_select_Some; by finish.
Qed.

(** ** A dataset without register *)

Lemma truthy_false (o : option string) :
  truthy o = false -> o = None \/ o = Some "".
Proof.
  destruct o as [s|]; [|by left]. cbn [truthy]. intros H. right. f_equal.
  apply negb_false_iff, bool_decide_eq_true_1 in H. done.
Qed.

(** The first lines of a method on a dataset whose object names no register. *)
Ltac without_register H :=
  destruct (truthy_false _ H) as [Hnone|Hnone]; simp;
  try change (bool_decide (@eq string "" "")) with true; simp.

(** X5: update_from_registered_maps of a dataset whose object names no register
    (None or the empty string): the method prints its message and returns at
    once.  It opens no connection, sends no statement and leaves the record
    and the object as they are. *)
Theorem update_without_register dbmi map_type dbif w :
  truthy (s_map_register (self w)) = false ->
  returns tt (fun w' =>
    registers w' = registers w /\ map_rows w' = map_rows w /\
    stds_rows w' = stds_rows w /\ self w' = self w /\
    conns w' = conns w /\ fail_in w' = fail_in w)
  (update_from_registered_maps dbmi map_type dbif w).
Proof.
  intros Hreg. unfold update_from_registered_maps. simp. step_format.
  without_register Hreg; by finish.
Qed.

(** X6: get_registered_maps of a dataset whose object names no register: the
    value is None, no statement is sent, and the connection the method opened
    is closed. *)
Theorem get_registered_maps_without_register columns where_ order dbif w :
  truthy (s_map_register (self w)) = false ->
  returns None (fun w' =>
    registers w' = registers w /\ map_rows w' = map_rows w /\
    stds_rows w' = stds_rows w /\ self w' = self w /\ fail_in w' = fail_in w /\
    messages w' = messages w /\ conns_released dbif w w')
  (get_registered_maps columns where_ order dbif w).
Proof.
  intros Hreg. unfold get_registered_maps, conns_released, if_true.
  destruct dbif as [c|]; without_register Hreg; finish;
    split_and!; try done; apply conns_app_close.
Qed.

(** X7: get_registered_maps_as_objects of a dataset whose object names no
    register: the value is the empty list. *)
Theorem get_registered_maps_as_objects_without_register where_ order dbif w :
  truthy (s_map_register (self w)) = false ->
  returns [] (fun w' =>
    registers w' = registers w /\ map_rows w' = map_rows w /\
    stds_rows w' = stds_rows w /\ self w' = self w /\ conns_released dbif w w')
  (get_registered_maps_as_objects where_ order dbif w).
Proof.
  intros Hreg. unfold get_registered_maps_as_objects, conns_released.
  destruct dbif as [c|]; simp.
  - eapply returns_bind.
    { eapply (get_registered_maps_without_register _ _ _ (Some c)). simp. done. }
    cbn beta. intros w' (? & ? & ? & ? & ? & ? & Hc). unfold conns_released in Hc.
    simp. unfold for_each_append. by finish.
  - eapply returns_bind.
    { eapply (get_registered_maps_without_register _ _ _ (Some (length (conns w)))).
      simp. done. }
    cbn beta. intros w' (? & ? & ? & ? & ? & ? & Hc). unfold conns_released in Hc.
    norm in Hc. simp. finish. split_and!; try done. apply conns_app_close.
Qed.

(** X8: get_temporal_relation_matrix of a dataset whose object names no register:
    the matrix is the row of the ids alone, and that row is empty. *)
Theorem get_temporal_relation_matrix_without_register dbif w :
  truthy (s_map_register (self w)) = false ->
  returns [[]] (fun w' =>
    registers w' = registers w /\ map_rows w' = map_rows w /\
    stds_rows w' = stds_rows w /\ self w' = self w /\ conns_released dbif w w')
  (get_temporal_relation_matrix dbif w).
Proof.
  intros Hreg. unfold get_temporal_relation_matrix, conns_released.
  destruct dbif as [c|]; simp.
  - eapply returns_bind.
    { eapply (get_registered_maps_as_objects_without_register _ _ (Some c)). simp. done. }
    cbn beta. intros w' (? & ? & ? & ? & Hc). unfold conns_released in Hc.
    simp. by finish.
  - eapply returns_bind.
    { eapply (get_registered_maps_as_objects_without_register _ _
                (Some (length (conns w)))). simp. done. }
    cbn beta. intros w' (? & ? & ? & ? & Hc). unfold conns_released in Hc.
    norm in Hc. simp. finish. split_and!; try done. apply conns_app_close.
Qed.

(** ** A query that fails *)

Lemma execute_missing_table dbif columns st where_ order w :
  fail_in w = None -> registers w !! st = None ->
  execute dbif [SELECT_FROM_view columns st where_ order] w = (Raise DatabaseError, w).
Proof.
  intros Hf Hst. unfold execute, bind. rewrite (tick_None _ Hf).
  unfold run_script. cbn [run_all run]. unfold with_table. by rewrite Hst.
Qed.

Lemma try_except_raise_Raise {A} (m : M A) (h : M unit) w e w1 u w2 :
  m w = (Raise e, w1) -> h w1 = (Return u, w2) ->
  try_except_raise m h w = (Raise e, w2).
Proof. intros Hm Hh. unfold try_except_raise. by rewrite Hm, Hh. Qed.

(** X9: get_registered_maps when the query fails, the back end failing on it or
    the register the object names not being there: the method closes the
    connection it opened and leaves the one of the caller, prints the error
    and raises the exception again.  No register and no record is touched. *)
Theorem get_registered_maps_query_fails columns where_ order dbif w st :
  s_map_register (self w) = Some st ->
  st <> "" ->
  fail_in w = Some O \/ (fail_in w = None /\ registers w !! st = None) ->
  raises DatabaseError (fun w' =>
    registers w' = registers w /\ map_rows w' = map_rows w /\
    stds_rows w' = stds_rows w /\ self w' = self w /\
    conns_released dbif w w' /\
    exists msg, py_format "Unable to get map ids from register table <%s>" [st] = Some msg /\
                messages w' = messages w ++ [(error, msg)])
  (get_registered_maps columns where_ order dbif w).
Proof.
  intros Hst Hne Hfail. unfold get_registered_maps, conns_released.
  pose proof (if_true_Some _ Hne) as Htrue.
  destruct Hfail as [Hf|[Hf Hnone]]; destruct dbif as [c|]; simp;
    (erewrite bind_Raise;
     [|eapply try_except_raise_Raise;
       [erewrite bind_Raise;
        [reflexivity|first [ apply execute_fails; side
                           | apply execute_missing_table; side ]]
       |simp; step_format; reflexivity]]);
    finish; split_and!; try done; try apply conns_app_close; by eexists.
Qed.

(** ** The creation of a register fails *)

Lemma executescript_or_execute_fails dbmi dbif qs w :
  fail_in w = Some O ->
  executescript_or_execute dbmi dbif qs w =
    (Raise DatabaseError, set_fail_in (fun _ => None) w).
Proof. intros H. destruct dbmi; exact (execute_fails dbif qs w H). Qed.

Lemma execute_CREATE_exists dbmi dbif table w ids :
  fail_in w = None -> registers w !! table = Some ids ->
  executescript_or_execute dbmi dbif [CREATE_TABLE table] w = (Raise DatabaseError, w).
Proof.
  intros Hf H.
  assert (execute dbif [CREATE_TABLE table] w = (Raise DatabaseError, w)) as He.
  { unfold execute, bind. rewrite (tick_None _ Hf).
    unfold run_script. cbn [run_all run]. by rewrite H. }
  destruct dbmi; exact He.
Qed.

(** X10: the first registration of a map, in a dataset whose object names no
    register, when a CREATE TABLE fails.  The method closes the connection it
    opened and leaves the one of the caller, prints the error and raises the
    exception again.  When the back end fails on the register of the map,
    nothing is written.  When the register of the dataset is there already,
    under the name the method derives, the register of the map has been
    created and the record of the map names it; the dataset is as it was: a
    register is named in a record only after it was created. *)
Theorem register_map_create_fails dbmi stds_type map_type map dbif w m cid name :
  map_rows w !! map = Some m ->
  map_stds_register m = None ->
  s_id (self w) = Some cid ->
  s_name (self w) = Some name ->
  s_mapset (self w) = Some (map_mapset m) ->
  s_map_register (self w) = None ->
  (fail_in w = Some O ->
   raises DatabaseError (fun w' =>
     registers w' = registers w /\ map_rows w' = map_rows w /\
     stds_rows w' = stds_rows w /\ self w' = self w /\ conns_released dbif w w' /\
     exists msg,
       py_format "Unable to create the space time %s dataset register table for <%s>"
         [map_type; map] = Some msg /\
       last (messages w') = Some (error, msg))
   (register_map dbmi stds_type map_type map dbif w)) /\
  (fail_in w = None ->
   registers w !! map_register_name stds_type w m = None ->
   is_Some (registers w !! stds_register_name map_type (self w)) ->
   raises DatabaseError (fun w' =>
     registers w' = <[map_register_name stds_type w m := []]> (registers w) /\
     map_rows w' = <[map := with_map_stds_register
                              (Some (map_register_name stds_type w m)) m]> (map_rows w) /\
     stds_rows w' = stds_rows w /\ self w' = self w /\ conns_released dbif w w' /\
     exists msg,
       py_format "Unable to create the space time %s dataset register table for <%s>"
         [map_type; map] = Some msg /\
       last (messages w') = Some (error, msg))
   (register_map dbmi stds_type map_type map dbif w)).
Proof.
  intros Hm Hmt Hid Hname Hms Hst.
  unfold register_map, conns_released, map_register_name, stds_register_name.
  rewrite Hmt, Hst, Hname, Hms. cbn [default from_option id].
  split.
  - intros Hf.
    destruct dbif as [c|]; simp;
      step map_is_in_db_true; step_format; step map_select_Some;
      rewrite bool_decide_eq_true_2 by done; simp;
      step uuid4_eq;
      (erewrite bind_Raise;
       [|eapply try_except_raise_Raise;
         [apply executescript_or_execute_fails; side
         |simp; step_format; reflexivity]]);
      finish; split_and!; try done; try apply conns_app_close;
      eexists; (split; [reflexivity|apply last_snoc]).
  - intros Hf Hnone [sids Hsids].
    assert (("map_" +:+ default "" (head (uuid_draws w))) +:+ "_" +:+ stds_type +:+ "_register"
            <> name +:+ "_" +:+ map_mapset m +:+ "_" +:+ map_type +:+ "_register") as Hne.
    { intros Heq. rewrite Heq in Hnone. congruence. }
    destruct dbif as [c|]; simp;
      step map_is_in_db_true; step_format; step map_select_Some;
      rewrite bool_decide_eq_true_2 by done; simp;
      step uuid4_eq; step try_CREATE; step map_set_stds_register_eq; step_format;
      (erewrite bind_Raise;
       [|eapply try_except_raise_Raise;
         [erewrite bind_Raise;
          [reflexivity
          |eapply execute_CREATE_exists;
           [side|simp; rewrite lookup_insert_ne by done; exact Hsids]]
         |simp; step_format; reflexivity]]);
      finish; split_and!; try done; try apply conns_app_close;
      try (apply map_eq; intros i; rewrite lookup_alter, lookup_insert;
           case_decide; simplify_eq; [by rewrite Hm|done]);
      eexists; (split; [reflexivity|apply last_snoc]).
Qed.

(** ** delete on a dataset without register *)

(** X11: delete of a dataset whose record names no register: no map is
    unregistered and no table is dropped; the record of the dataset is
    deleted, the object is reset and the connection the method opened is
    closed.  The registers and the records of the maps are as they were. *)
Theorem delete_without_register map_type dbif w cid r :
  s_id (self w) = Some cid ->
  stds_rows w !! cid = Some r ->
  s_id r = Some cid ->
  truthy (s_map_register r) = false ->
  returns tt (fun w' =>
    registers w' = registers w /\ map_rows w' = map_rows w /\
    stds_rows w' = base.delete cid (stds_rows w) /\
    self w' = reset None /\ fail_in w' = fail_in w /\ conns_released dbif w w')
  (delete map_type dbif w).
Proof.
  intros Hid Hr Hrid Hreg. unfold delete, conns_released.
  simp. step_format.
  destruct (truthy_false _ Hreg) as [Hnone|Hnone];
    destruct dbif as [c|]; simp;
      step select_eq; step_format;
      try change (if_true (Some "")) with (@None string); simp;
      step base_delete_Some; finish;
      split_and!; try done; apply conns_app_close.
Qed.

(** ** What register_map and unregister_map leave alone *)

(** X12: unregister_map of a registered pair removes the rows of the pair and
    nothing else: the register of the map loses the rows that hold the id of
    the dataset and keeps its other rows, the register of the dataset loses
    the rows that hold the id of the map and keeps its other rows, every
    other register is as it was, and so are the records of the maps, which
    still name their registers, and the record and the object of the dataset,
    with the extent and the number of maps they hold.  The update of the
    dataset is left to the caller. *)
Theorem unregister_map_keeps_records map_type map dbif w m mt mids cid st sids :
  map_rows w !! map = Some m ->
  map_stds_register m = Some mt ->
  registers w !! mt = Some mids ->
  s_id (self w) = Some cid ->
  cid ∈ mids ->
  s_map_register (self w) = Some st ->
  registers w !! st = Some sids ->
  mt <> st ->
  fail_in w = None ->
  returns None (fun w' =>
    registers w' !! mt = Some (filter (fun i => i <> cid) mids) /\
    registers w' !! st = Some (filter (fun i => i <> map) sids) /\
    (forall table, table <> mt -> table <> st -> registers w' !! table = registers w !! table) /\
    map_rows w' = map_rows w /\ stds_rows w' = stds_rows w /\ self w' = self w)
  (unregister_map map_type map dbif w).
Proof.
  intros Hm Hmt Hmids Hid Hin Hst Hsids Hne Hf.
  eapply returns_mono; [by eapply unregister_map_registered|].
  cbn beta. intros w' (-> & -> & -> & -> & _). split_and!; try done.
  - rewrite lookup_insert_ne by done. by rewrite lookup_insert_eq.
  - by rewrite lookup_insert_eq.
  - intros table H1 H2. by rewrite !lookup_insert_ne.
Qed.

(** X13: register_map of a new pair writes the two rows and the names of the
    registers it creates, and nothing else of the dataset.  The extent and
    the map time of the dataset, in its record and in the object, and the
    number of maps of the object are as they were.  The number of maps of the
    record is as it was, but for one case: when the call creates the register
    of the dataset it stores the metadata of the object, and the number of
    maps of the object, if it is set, goes to the record.  The update of the
    dataset is left to the caller. *)
Theorem register_map_keeps_extent dbmi stds_type map_type map dbif w m cid name mids sids r :
  map_rows w !! map = Some m ->
  s_id (self w) = Some cid ->
  s_name (self w) = Some name ->
  s_mapset (self w) = Some (map_mapset m) ->
  stds_rows w !! cid = Some r ->
  rows_before w (map_stds_register m) (map_register_name stds_type w m) mids ->
  rows_before w (s_map_register (self w)) (stds_register_name map_type (self w)) sids ->
  map_register_name stds_type w m <> stds_register_name map_type (self w) ->
  s_map_register (self w) <> Some "" ->
  cid ∉ mids ->
  map ∉ sids ->
  fail_in w = None ->
  returns true (fun w' =>
    exists r', stds_rows w' !! cid = Some r' /\
      extent r' = extent r /\
      extent (self w') = extent (self w) /\
      s_number_of_maps (self w') = s_number_of_maps (self w) /\
      s_number_of_maps r' =
        match s_map_register (self w), s_number_of_maps (self w) with
        | None, Some n => Some n
        | _, _ => s_number_of_maps r
        end)
  (register_map dbmi stds_type map_type map dbif w).
Proof.
  intros Hm Hid Hname Hms Hr Hmrows Hsrows Hne Hnempty Hcid Hmap Hf.
  eapply returns_mono; [by eapply register_map_new|].
  cbn beta. intros w' (_ & _ & -> & -> & _).
  destruct (s_map_register (self w)) as [st|] eqn:Hst.
  - exists r. by split_and!.
  - rewrite lookup_alter_eq, Hr. cbn [fmap option_fmap option_map].
    eexists. split; [reflexivity|].
    unfold update_metadata. cbn [s_map_register s_number_of_maps with_s_map_register].
    by destruct (s_number_of_maps (self w)) as [n|]; split_and!.
Qed.

(** X14: register_map of a new pair touches the register of the map and the
    register of the dataset, and the record of the map: every other register
    and the record of every other map are as they were. *)
Theorem register_map_frame dbmi stds_type map_type map dbif w m cid name mids sids :
  map_rows w !! map = Some m ->
  s_id (self w) = Some cid ->
  s_name (self w) = Some name ->
  s_mapset (self w) = Some (map_mapset m) ->
  rows_before w (map_stds_register m) (map_register_name stds_type w m) mids ->
  rows_before w (s_map_register (self w)) (stds_register_name map_type (self w)) sids ->
  map_register_name stds_type w m <> stds_register_name map_type (self w) ->
  s_map_register (self w) <> Some "" ->
  cid ∉ mids ->
  map ∉ sids ->
  fail_in w = None ->
  returns true (fun w' =>
    (forall table, table <> map_register_name stds_type w m ->
       table <> stds_register_name map_type (self w) ->
       registers w' !! table = registers w !! table) /\
    (forall map', map' <> map -> map_rows w' !! map' = map_rows w !! map') /\
    (forall cid', cid' <> cid -> stds_rows w' !! cid' = stds_rows w !! cid'))
  (register_map dbmi stds_type map_type map dbif w).
Proof.
  intros Hm Hid Hname Hms Hmrows Hsrows Hne Hnempty Hcid Hmap Hf.
  eapply returns_mono; [by eapply register_map_new|].
  cbn beta. intros w' (-> & -> & _ & -> & _). split_and!.
  - intros table H1 H2. by rewrite !lookup_insert_ne.
  - intros map' H. by rewrite lookup_insert_ne.
  - intros cid' H. destruct (s_map_register (self w)); [done|].
    by rewrite lookup_alter_ne.
Qed.

(** ** Registration and unregistration in sequence *)

Lemma filter_ne_snoc (x : string) (l : list string) :
  x ∉ l -> filter (fun i => i <> x) (l ++ [x]) = l.
Proof.
  intros Hni. rewrite filter_app, filter_cons_False, filter_nil, app_nil_r by (by intros ?).
  induction l as [|y l IH]; [done|].
  rewrite filter_cons_True; [f_equal; apply IH|];
    intros ?; apply Hni; subst; [by right|by left].
Qed.

(** X15: a pair that neither register holds is registered and then unregistered:
    both calls return, and each register holds again the ids it held before,
    the registers that the registration created being left empty.  No other
    register is touched. *)
Theorem register_then_unregister dbmi stds_type map_type map dbif dbif' w m cid name
    mids sids :
  map_rows w !! map = Some m ->
  s_id (self w) = Some cid ->
  s_name (self w) = Some name ->
  s_mapset (self w) = Some (map_mapset m) ->
  rows_before w (map_stds_register m) (map_register_name stds_type w m) mids ->
  rows_before w (s_map_register (self w)) (stds_register_name map_type (self w)) sids ->
  map_register_name stds_type w m <> stds_register_name map_type (self w) ->
  s_map_register (self w) <> Some "" ->
  cid ∉ mids ->
  map ∉ sids ->
  fail_in w = None ->
  returns true (fun w1 =>
    returns None (fun w2 =>
      registers w2 = <[stds_register_name map_type (self w) := sids]>
                       (<[map_register_name stds_type w m := mids]> (registers w)))
    (unregister_map map_type map dbif' w1))
  (register_map dbmi stds_type map_type map dbif w).
Proof.
  intros Hm Hid Hname Hms Hmrows Hsrows Hne Hnempty Hcid Hmap Hf.
  eapply returns_mono; [by eapply register_map_new|].
  cbn beta. intros w1 (Hreg & Hmaps & Hself & _ & Hf1 & _).
  set (mt := map_register_name stds_type w m) in *.
  set (st := stds_register_name map_type (self w)) in *.
  eapply returns_mono.
  { eapply (unregister_map_registered map_type map dbif' w1
              (with_map_stds_register (Some mt) m) mt (mids ++ [cid]) cid st (sids ++ [map])).
    - rewrite Hmaps. apply lookup_insert_eq.
    - done.
    - rewrite Hreg. rewrite lookup_insert_ne by done. apply lookup_insert_eq.
    - by rewrite Hself.
    - apply elem_of_app. right. by left.
    - by rewrite Hself.
    - rewrite Hreg. apply lookup_insert_eq.
    - done.
    - done. }
  cbn beta. intros w2 (-> & _). rewrite Hreg.
  rewrite !filter_ne_snoc by done.
  apply map_eq. intros t. rewrite ?lookup_insert. repeat case_decide; simplify_eq; done.
Qed.

(** ** update_from_registered_maps: what it writes and when it fails *)

Lemma max_time_ge (ts : list Z) t :
  t ∈ ts -> exists u, max_time ts = Some u /\ t <= u.
Proof.
  induction ts as [|x ts IH]; [by intros ?%elem_of_nil|].
  intros [->|Hin]%elem_of_cons; cbn [max_time foldr].
  - eexists. split; [reflexivity|]. destruct (foldr _ _ ts); lia.
  - destruct (IH Hin) as (u & Hu & Hle). unfold max_time in Hu. rewrite Hu.
    eexists. split; [reflexivity|]. lia.
Qed.

Lemma min_time_le (ts : list Z) t :
  t ∈ ts -> exists u, min_time ts = Some u /\ u <= t.
Proof.
  induction ts as [|x ts IH]; [by intros ?%elem_of_nil|].
  intros [->|Hin]%elem_of_cons; cbn [min_time foldr].
  - eexists. split; [reflexivity|]. destruct (foldr _ _ ts); lia.
  - destruct (IH Hin) as (u & Hu & Hle). unfold min_time in Hu. rewrite Hu.
    eexists. split; [reflexivity|]. lia.
Qed.

(** X16: after an update that can read the maximum start time back, the extent
    of the dataset covers every registered map: the dataset starts no later
    than the map starts, and it ends no earlier than the map starts and, when
    the map has an end time, than the map ends. *)
Theorem update_extent_covers_maps dbmi map_type dbif w cid name mapset st r ty ids map m :
  s_id (self w) = Some cid ->
  s_name (self w) = Some name ->
  s_mapset (self w) = Some mapset ->
  s_map_register (self w) = Some st ->
  st <> "" ->
  registers w !! update_register_name map_type name mapset = Some ids ->
  stds_rows w !! cid = Some r ->
  s_id r = Some cid ->
  s_ttype r = Some ty ->
  fail_in w = None ->
  start_time_readable dbmi ty w ids ->
  map ∈ ids ->
  map_rows w !! map = Some m ->
  returns tt (fun w' =>
    exists r' s e, stds_rows w' !! cid = Some r' /\ self w' = r' /\
      s_start_time r' = Some s /\ s_end_time r' = Some e /\
      s <= map_start_time m <= e /\
      (forall e', map_end_time m = Some e' -> e' <= e))
  (update_from_registered_maps dbmi map_type dbif w).
Proof.
  intros Hid Hname Hmapset Hst Hne Hids Hr Hrid Htt Hf Hread Hin Hm.
  eapply returns_mono; [by eapply update_from_registered_maps_spec|].
  cbn beta. intros w' (Hstds & Hself & _).
  assert ((map, m) ∈ registered_maps w ids) as Hreg by by apply elem_of_registered_maps.
  assert (map_start_time m ∈ (fun p => map_start_time p.2) <$> registered_maps w ids) as Hs.
  { apply list_elem_of_fmap. by exists (map, m). }
  destruct (min_time_le _ _ Hs) as (s & Hmin & Hsle).
  destruct (max_time_ge _ _ Hs) as (u & Hmax & Hule).
  assert (exists e, (classify (max_end_time w ids) (max_start_time w ids)).1 = Some e /\
                    u <= e /\ forall e', max_end_time w ids = Some e' -> e' <= e)
    as (e & Hend & Hue & Hee).
  { unfold classify, max_start_time. rewrite Hmax.
    destruct (max_end_time w ids) as [e0|].
    - case_bool_decide; eexists; (split; [reflexivity|]); split; try lia;
        intros e' [= <-]; lia.
    - eexists. split; [reflexivity|]. split; [lia|]. by intros e' [=]. }
  exists (updated_record w ids r), s, e. split_and!.
  - rewrite Hstds. apply lookup_insert_eq.
  - done.
  - done.
  - done.
  - lia.
  - lia.
  - intros e' He'.
    assert (e' ∈ omap (fun p => map_end_time p.2) (registered_maps w ids)) as Hin'.
    { apply list_elem_of_omap. by exists (map, m). }
    destruct (max_time_ge _ _ Hin') as (v & Hv & Hle).
    specialize (Hee v Hv). lia.
Qed.

(** X17: the update is idempotent, when it can read the maximum start time
    back: a second update, the maps and the registers being as they were,
    returns as the first did, writes the record the first update wrote and
    leaves the object equal to it. *)
Theorem update_twice dbmi map_type dbif dbif' w cid name mapset st r ty ids :
  s_id (self w) = Some cid ->
  s_name (self w) = Some name ->
  s_mapset (self w) = Some mapset ->
  s_map_register (self w) = Some st ->
  st <> "" ->
  registers w !! update_register_name map_type name mapset = Some ids ->
  stds_rows w !! cid = Some r ->
  s_id r = Some cid ->
  s_name r = Some name ->
  s_mapset r = Some mapset ->
  s_map_register r = Some st ->
  s_ttype r = Some ty ->
  fail_in w = None ->
  start_time_readable dbmi ty w ids ->
  returns tt (fun w1 =>
    returns tt (fun w2 => stds_rows w2 = stds_rows w1 /\ self w2 = self w1)
      (update_from_registered_maps dbmi map_type dbif' w1))
  (update_from_registered_maps dbmi map_type dbif w).
Proof.
  intros Hid Hname Hmapset Hst Hne Hids Hr Hrid Hrname Hrmapset Hrst Htt Hf Hread.
  eapply returns_mono; [by eapply update_from_registered_maps_spec|].
  cbn beta. intros w1 (Hstds & Hself & Hreg & Hmaps & Hf1 & _).
  eapply returns_mono.
  { eapply (update_from_registered_maps_spec dbmi map_type dbif' w1 cid name mapset st
              (updated_record w ids r) ty ids); rewrite ?Hself, ?Hreg, ?Hstds; try done.
    - apply lookup_insert_eq.
    - unfold start_time_readable in *.
      by rewrite (max_end_time_ext w w1), (max_start_time_ext w w1). }
  cbn beta. intros w2 (Hstds2 & Hself2 & _).
  assert (updated_record w1 ids (updated_record w ids r) = updated_record w ids r) as Heq.
  { unfold updated_record.
    rewrite (registered_maps_ext w w1), (max_end_time_ext w w1), (max_start_time_ext w w1),
      (min_start_time_ext w w1) by done.
    reflexivity. }
  rewrite Hstds2, Hself2, Heq, Hself, Hstds. split; [|done].
  apply insert_insert_eq.
Qed.

Lemma execute_update_script_missing dbmi c table cid w :
  fail_in w = None -> registers w !! table = None ->
  executescript_or_execute dbmi c
    [UPDATE_spatial_temporal_extent table cid; UPDATE_metadata table cid] w =
  (Raise DatabaseError, w).
Proof.
  intros Hf Ht.
  assert (execute c [UPDATE_spatial_temporal_extent table cid; UPDATE_metadata table cid] w =
          (Raise DatabaseError, w)) as He.
  { unfold execute, bind. rewrite (tick_None _ Hf).
    unfold run_script. cbn [run_all run]. unfold with_table, bind. by rewrite Ht. }
  destruct dbmi; exact He.
Qed.

(** X18: the update reads the register under the name it derives from the name
    and the mapset of the dataset and the type of its maps, not under the name
    the object holds.  When no register of that name is there, the first
    script fails: the exception leaves the method, which has no handler, the
    record and the object are as they were, and a connection the method
    opened stays open. *)
Theorem update_register_missing dbmi map_type dbif w cid name mapset st :
  s_id (self w) = Some cid ->
  s_name (self w) = Some name ->
  s_mapset (self w) = Some mapset ->
  s_map_register (self w) = Some st ->
  st <> "" ->
  registers w !! update_register_name map_type name mapset = None ->
  fail_in w = None ->
  raises DatabaseError (fun w' =>
    registers w' = registers w /\ map_rows w' = map_rows w /\
    stds_rows w' = stds_rows w /\ self w' = self w /\
    conns w' = match dbif with Some _ => conns w | None => conns w ++ [true] end)
  (update_from_registered_maps dbmi map_type dbif w).
Proof.
  intros Hid Hname Hmapset Hst Hne Hnone Hf.
  unfold update_register_name in Hnone.
  pose proof (bool_decide_eq_false_2 _ Hne) as Hbd.
  unfold update_from_registered_maps. simp. step_format. simp.
  destruct dbif as [c|]; simp;
    (erewrite bind_Raise; [|eapply execute_update_script_missing; side]);
    by finish.
Qed.

(** ** The registered maps as objects *)

(** X19: get_registered_maps_as_objects with the order start_time on a dataset
    with a register: the list holds one object for every id of the register
    that has a record in the database, and no other; no id comes twice; every
    object carries the fields of its record; and the objects are in the order
    of their start times.  No register and no record is touched. *)
Theorem get_registered_maps_as_objects_sorted dbif w st sids :
  s_map_register (self w) = Some st ->
  st <> "" ->
  registers w !! st = Some sids ->
  fail_in w = None ->
  exists objs,
    returns objs (fun w' =>
      registers w' = registers w /\ map_rows w' = map_rows w /\
      stds_rows w' = stds_rows w /\ self w' = self w /\ conns_released dbif w w')
    (get_registered_maps_as_objects None (Some "start_time") dbif w) /\
    (forall map m, (map, m) ∈ objs <-> map ∈ sids /\ map_rows w !! map = Some m) /\
    NoDup objs.*1 /\
    Sorted start_time_le objs.
Proof.
  intros Hst Hne Hsids Hf.
  exists (merge_sort start_time_le (registered_maps w sids)). split_and!.
  - eapply returns_mono; [by eapply get_registered_maps_as_objects_start_time|].
    cbn beta. tauto.
  - intros map m. rewrite merge_sort_Permutation, elem_of_registered_maps. tauto.
  - rewrite merge_sort_Permutation. apply NoDup_registered_maps.
  - apply (Sorted_merge_sort start_time_le).
Qed.

(** ** delete when the register cannot be dropped *)

Lemma get_registered_maps_id_later c w st sids n :
  s_map_register (self w) = Some st -> st <> "" ->
  registers w !! st = Some sids -> fail_in w = Some (S n) ->
  get_registered_maps (Some "id") None None (Some c) w =
    (Return (Some ((fun i => [Text i]) <$> (registered_maps w sids).*1)),
     set_fail_in (fun _ => Some n) w).
Proof.
  intros Hst Hne Hsids Hf. unfold get_registered_maps. simp.
  rewrite (if_true_Some _ Hne).
  erewrite bind_Return; [reflexivity|].
  apply try_except_raise_Return.
  erewrite bind_Return; [reflexivity|].
  eapply execute_one_later; [done|].
  cbn [run]. unfold with_table. cbn [registers set_fail_in]. rewrite Hsids. simp.
  rewrite bool_decide_eq_true_2 by done. by rewrite <- list_fmap_compose.
Qed.

(** X20: delete of a dataset whose register joins no map, the back end failing on
    the DROP TABLE: the method closes the connection it opened and leaves the
    one of the caller, prints the error and raises the exception again.  The
    register is still there, the record of the dataset is not deleted and the
    object is not reset: it holds the fields of the record. *)
Theorem delete_drop_fails map_type dbif w cid r st sids :
  s_id (self w) = Some cid ->
  stds_rows w !! cid = Some r ->
  s_id r = Some cid ->
  s_map_register r = Some st ->
  st <> "" ->
  registers w !! st = Some sids ->
  registered_maps w sids = [] ->
  fail_in w = Some 1%nat ->
  raises DatabaseError (fun w' =>
    registers w' = registers w /\ map_rows w' = map_rows w /\
    stds_rows w' = stds_rows w /\ self w' = r /\ conns_released dbif w w' /\
    exists msg, py_format "Unable to drop table <%s>" [st] = Some msg /\
                last (messages w') = Some (error, msg))
  (delete map_type dbif w).
Proof.
  intros Hid Hr Hrid Hrst Hne Hsids Hnil Hf. unfold delete, conns_released.
  pose proof (if_true_Some _ Hne) as Htrue.
  simp. step_format.
  destruct dbif as [c|]; simp;
    step select_eq; step_format;
    (erewrite (bind_Return (get_registered_maps _ _ _ _));
     [|eapply get_registered_maps_id_later; side]);
    rewrite (registered_maps_ext w) by reflexivity;
    rewrite Hnil; cbn [fmap list_fmap for_each]; simp;
    (erewrite bind_Raise;
     [|eapply try_except_raise_Raise;
       [simp; erewrite bind_Raise; [reflexivity|apply execute_fails; side]
       |simp; step_format; reflexivity]]);
    finish; split_and!; try done; try apply conns_app_close;
    eexists; (split; [reflexivity|apply last_snoc]).
Qed.

(** ** What the update leaves alone *)

(** X21: an update that can read the maximum start time back returns, and it
    writes the record of its own dataset and nothing else: the
    registers, the records of the maps and the records of the other datasets
    are as they were, and in the record it writes the id, the name, the
    mapset, the temporal type and the register are those it held; the number
    of maps it records is the number of registered maps that have a
    record. *)
Theorem update_frame dbmi map_type dbif w cid name mapset st r ty ids :
  s_id (self w) = Some cid ->
  s_name (self w) = Some name ->
  s_mapset (self w) = Some mapset ->
  s_map_register (self w) = Some st ->
  st <> "" ->
  registers w !! update_register_name map_type name mapset = Some ids ->
  stds_rows w !! cid = Some r ->
  s_id r = Some cid ->
  s_ttype r = Some ty ->
  fail_in w = None ->
  start_time_readable dbmi ty w ids ->
  returns tt (fun w' =>
    registers w' = registers w /\ map_rows w' = map_rows w /\
    (forall cid', cid' <> cid -> stds_rows w' !! cid' = stds_rows w !! cid') /\
    exists r', stds_rows w' !! cid = Some r' /\
      s_id r' = s_id r /\ s_name r' = s_name r /\ s_mapset r' = s_mapset r /\
      s_ttype r' = s_ttype r /\ s_map_register r' = s_map_register r /\
      s_number_of_maps r' = Some (length (filter (fun map => is_Some (map_rows w !! map))
                                            (remove_dups ids))))
  (update_from_registered_maps dbmi map_type dbif w).
Proof.
  intros Hid Hname Hmapset Hst Hne Hids Hr Hrid Htt Hf Hread.
  eapply returns_mono; [by eapply update_from_registered_maps_spec|].
  cbn beta. intros w' (-> & _ & -> & -> & _). split_and!; try done.
  - intros cid' H. by rewrite lookup_insert_ne.
  - exists (updated_record w ids r). rewrite lookup_insert_eq. split_and!; try done.
    cbn [updated_record s_number_of_maps]. f_equal.
    rewrite <- (length_fmap fst).
    apply Permutation_length, NoDup_Permutation.
    + apply NoDup_registered_maps.
    + apply NoDup_filter, NoDup_remove_dups.
    + intros map. rewrite list_elem_of_fmap, list_elem_of_filter, elem_of_remove_dups. split.
      * intros ([map' m] & -> & [Hm Hin]%elem_of_registered_maps). cbn [fst]. eauto.
      * intros [[m Hm] Hin]. exists (map, m). split; [done|].
        by apply elem_of_registered_maps.
Qed.

(** * The further properties on the example database *)

(** X1 on the example: there is no map z@m. *)
Lemma register_map_missing_map_witness :
  raises SystemExit (fun w' =>
    registers w' = registers world_0 /\ map_rows w' = map_rows world_0 /\
    stds_rows w' = stds_rows world_0 /\ self w' = self world_0 /\
    messages w' = messages world_0 ++
      [(error, "Only maps with absolute or relative valid time can be registered")])
  (register_map sqlite3 "strds" "raster" "z@m" None world_0).
Proof.
  apply (register_map_missing_map sqlite3 "strds" "raster" "z@m" None world_0); evaluated.
Defined.

(** X2 on the example: the map x@n is of the mapset n, the dataset of the
    mapset m. *)
Lemma register_map_other_mapset_witness :
  raises SystemExit (fun w' =>
    registers w' = registers world_x /\ map_rows w' = map_rows world_x /\
    stds_rows w' = stds_rows world_x /\ self w' = self world_x /\
    fail_in w' = fail_in world_x /\
    last (messages w') = Some (error, "Only maps from the same mapset can be registered"))
  (register_map sqlite3 "strds" "raster" "x@n" None world_x).
Proof.
  apply (register_map_other_mapset sqlite3 "strds" "raster" "x@n" None world_x map_x);
    evaluated.
Defined.

(** X10 on the example: [b] has no register; the register of the dataset is
    there and the object does not name it. *)
Lemma register_map_create_fails_witness :
  raises DatabaseError (fun w' =>
    registers w' = <[map_register_name "strds" world_unselected map_b := []]>
                     (registers world_unselected) /\
    map_rows w' = <["b@m" := with_map_stds_register
                               (Some (map_register_name "strds" world_unselected map_b)) map_b]>
                    (map_rows world_unselected) /\
    stds_rows w' = stds_rows world_unselected /\ self w' = self world_unselected /\
    conns_released None world_unselected w' /\
    exists msg,
      py_format "Unable to create the space time %s dataset register table for <%s>"
        ["raster"; "b@m"] = Some msg /\
      last (messages w') = Some (error, msg))
  (register_map sqlite3 "strds" "raster" "b@m" None world_unselected).
Proof.
  refine (proj2 (register_map_create_fails sqlite3 "strds" "raster" "b@m" None
                   world_unselected map_b "c@m" "c" _ _ _ _ _ _) _ _ _); evaluated.
Defined.

(** X13 on the example: [a] is registered in the dataset without maps. *)
Lemma register_map_keeps_extent_witness :
  returns true (fun w' =>
    exists r', stds_rows w' !! "c@m" = Some r' /\
      extent r' = extent dataset_c /\
      extent (self w') = extent (self world_0) /\
      s_number_of_maps (self w') = s_number_of_maps (self world_0) /\
      s_number_of_maps r' =
        match s_map_register (self world_0), s_number_of_maps (self world_0) with
        | None, Some n => Some n
        | _, _ => s_number_of_maps dataset_c
        end)
  (register_map sqlite3 "strds" "raster" "a@m" None world_0).
Proof.
  apply (register_map_keeps_extent sqlite3 "strds" "raster" "a@m" None world_0 map_a
           "c@m" "c" [] [] dataset_c); evaluated.
Defined.

(** X14 on the example: [a] is registered in the dataset without maps. *)
Lemma register_map_frame_witness :
  returns true (fun w' =>
    (forall table, table <> map_register_name "strds" world_0 map_a ->
       table <> stds_register_name "raster" (self world_0) ->
       registers w' !! table = registers world_0 !! table) /\
    (forall map', map' <> "a@m" -> map_rows w' !! map' = map_rows world_0 !! map') /\
    (forall cid', cid' <> "c@m" -> stds_rows w' !! cid' = stds_rows world_0 !! cid'))
  (register_map sqlite3 "strds" "raster" "a@m" None world_0).
Proof.
  apply (register_map_frame sqlite3 "strds" "raster" "a@m" None world_0 map_a
           "c@m" "c" [] []); evaluated.
Defined.

(** X15 on the example: [a] is registered in the dataset without maps and unregistered. *)
Lemma register_then_unregister_witness :
  returns true (fun w1 =>
    returns None (fun w2 =>
      registers w2 = <[stds_register_name "raster" (self world_0) := []]>
                       (<[map_register_name "strds" world_0 map_a := []]> (registers world_0)))
    (unregister_map "raster" "a@m" None w1))
  (register_map sqlite3 "strds" "raster" "a@m" None world_0).
Proof.
  apply (register_then_unregister sqlite3 "strds" "raster" "a@m" None None world_0 map_a
           "c@m" "c" [] []); evaluated.
Defined.

(** X3 on the example: there is no map z@m. *)
Lemma unregister_map_missing_map_witness :
  raises SystemExit (fun w' =>
    registers w' = registers world_0 /\ map_rows w' = map_rows world_0 /\
    stds_rows w' = stds_rows world_0 /\ self w' = self world_0 /\
    exists msg, py_format "Unable to find map <%s> in temporal database" ["z@m"] = Some msg /\
                messages w' = messages world_0 ++ [(error, msg)])
  (unregister_map "raster" "z@m" None world_0).
Proof.
  apply (unregister_map_missing_map "raster" "z@m" None world_0); evaluated.
Defined.

(** X4 on the example: [a] was never registered. *)
Lemma unregister_map_no_register_witness :
  raises TypeError (fun w' =>
    registers w' = registers world_0 /\ map_rows w' = map_rows world_0 /\
    stds_rows w' = stds_rows world_0 /\ self w' = self world_0 /\
    fail_in w' = fail_in world_0 /\ conns w' = conns world_0 ++ [true])
  (unregister_map "raster" "a@m" None world_0).
Proof.
  apply (unregister_map_no_register "raster" "a@m" None world_0 map_a); evaluated.
Defined.

(** X12 on the example: [a] is unregistered from the dataset that holds it. *)
Lemma unregister_map_keeps_records_witness :
  returns None (fun w' =>
    registers w' !! "map_u1_strds_register" = Some (filter (fun i => i <> "c@m") ["c@m"]) /\
    registers w' !! "c_m_raster_register" = Some (filter (fun i => i <> "a@m") ["a@m"]) /\
    (forall table, table <> "map_u1_strds_register" -> table <> "c_m_raster_register" ->
       registers w' !! table = registers world_a !! table) /\
    map_rows w' = map_rows world_a /\ stds_rows w' = stds_rows world_a /\
    self w' = self world_a)
  (unregister_map "raster" "a@m" None world_a).
Proof.
  apply (unregister_map_keeps_records "raster" "a@m" None world_a map_a_registered
           "map_u1_strds_register" ["c@m"] "c@m" "c_m_raster_register" ["a@m"]); evaluated.
Defined.

(** X6 on the example: the dataset without maps has no register. *)
Lemma get_registered_maps_without_register_witness :
  returns None (fun w' =>
    registers w' = registers world_0 /\ map_rows w' = map_rows world_0 /\
    stds_rows w' = stds_rows world_0 /\ self w' = self world_0 /\
    fail_in w' = fail_in world_0 /\ messages w' = messages world_0 /\
    conns_released None world_0 w')
  (get_registered_maps (Some "id") None None None world_0).
Proof.
  apply (get_registered_maps_without_register (Some "id") None None None world_0); evaluated.
Defined.

(** X9 on the example: the register the object names is not there. *)
Lemma get_registered_maps_query_fails_witness :
  raises DatabaseError (fun w' =>
    registers w' = registers world_renamed /\ map_rows w' = map_rows world_renamed /\
    stds_rows w' = stds_rows world_renamed /\ self w' = self world_renamed /\
    conns_released None world_renamed w' /\
    exists msg,
      py_format "Unable to get map ids from register table <%s>" ["old_register"] = Some msg /\
      messages w' = messages world_renamed ++ [(error, msg)])
  (get_registered_maps (Some "id") None None None world_renamed).
Proof.
  apply (get_registered_maps_query_fails (Some "id") None None None world_renamed
           "old_register"); first [ evaluated | right; evaluated ].
Defined.

(** X7 on the example: the dataset without maps has no register. *)
Lemma get_registered_maps_as_objects_without_register_witness :
  returns [] (fun w' =>
    registers w' = registers world_0 /\ map_rows w' = map_rows world_0 /\
    stds_rows w' = stds_rows world_0 /\ self w' = self world_0 /\
    conns_released None world_0 w')
  (get_registered_maps_as_objects None None None world_0).
Proof.
  apply (get_registered_maps_as_objects_without_register None None None world_0); evaluated.
Defined.

(** X19 on the example: the dataset holds [a] and [b]. *)
Lemma get_registered_maps_as_objects_sorted_witness :
  exists objs,
    returns objs (fun w' =>
      registers w' = registers world_ab /\ map_rows w' = map_rows world_ab /\
      stds_rows w' = stds_rows world_ab /\ self w' = self world_ab /\
      conns_released None world_ab w')
    (get_registered_maps_as_objects None (Some "start_time") None world_ab) /\
    (forall map m, (map, m) ∈ objs <->
       map ∈ ["a@m"; "b@m"] /\ map_rows world_ab !! map = Some m) /\
    NoDup objs.*1 /\
    Sorted start_time_le objs.
Proof.
  apply (get_registered_maps_as_objects_sorted None world_ab "c_m_raster_register"
           ["a@m"; "b@m"]); evaluated.
Defined.

(** X8 on the example: the dataset without maps has no register. *)
Lemma get_temporal_relation_matrix_without_register_witness :
  returns [[]] (fun w' =>
    registers w' = registers world_0 /\ map_rows w' = map_rows world_0 /\
    stds_rows w' = stds_rows world_0 /\ self w' = self world_0 /\
    conns_released None world_0 w')
  (get_temporal_relation_matrix None world_0).
Proof.
  apply (get_temporal_relation_matrix_without_register None world_0); evaluated.
Defined.

(** X11 on the example: the dataset without maps has no register. *)
Lemma delete_without_register_witness :
  returns tt (fun w' =>
    registers w' = registers world_0 /\ map_rows w' = map_rows world_0 /\
    stds_rows w' = base.delete "c@m" (stds_rows world_0) /\
    self w' = reset None /\ fail_in w' = fail_in world_0 /\ conns_released None world_0 w')
  (delete "raster" None world_0).
Proof.
  apply (delete_without_register "raster" None world_0 "c@m" dataset_c); evaluated.
Defined.

(** X20 on the example: the register of the dataset is empty and the back end
    fails on the second statement. *)
Lemma delete_drop_fails_witness :
  raises DatabaseError (fun w' =>
    registers w' = registers (failing_in 1 world_a_unregistered) /\
    map_rows w' = map_rows (failing_in 1 world_a_unregistered) /\
    stds_rows w' = stds_rows (failing_in 1 world_a_unregistered) /\
    self w' = self world_a_unregistered /\
    conns_released None (failing_in 1 world_a_unregistered) w' /\
    exists msg, py_format "Unable to drop table <%s>" ["c_m_raster_register"] = Some msg /\
                last (messages w') = Some (error, msg))
  (delete "raster" None (failing_in 1 world_a_unregistered)).
Proof.
  apply (delete_drop_fails "raster" None (failing_in 1 world_a_unregistered) "c@m"
           (self world_a_unregistered) "c_m_raster_register" []); evaluated.
Defined.

(** X5 on the example: the dataset without maps has no register. *)
Lemma update_without_register_witness :
  returns tt (fun w' =>
    registers w' = registers world_0 /\ map_rows w' = map_rows world_0 /\
    stds_rows w' = stds_rows world_0 /\ self w' = self world_0 /\
    conns w' = conns world_0 /\ fail_in w' = fail_in world_0)
  (update_from_registered_maps sqlite3 "raster" None world_0).
Proof.
  apply (update_without_register sqlite3 "raster" None world_0); evaluated.
Defined.

(** X16 on the example: the dataset holds [a] and [b], and the extent covers [b]. *)
Lemma update_extent_covers_maps_witness :
  returns tt (fun w' =>
    exists r' s e, stds_rows w' !! "c@m" = Some r' /\ self w' = r' /\
      s_start_time r' = Some s /\ s_end_time r' = Some e /\
      s <= map_start_time (with_map_stds_register (Some "map_u2_strds_register") map_b) <= e /\
      (forall e', map_end_time (with_map_stds_register (Some "map_u2_strds_register") map_b)
                  = Some e' -> e' <= e))
  (update_from_registered_maps sqlite3 "raster" None world_ab).
Proof.
  apply (update_extent_covers_maps sqlite3 "raster" None world_ab "c@m" "c" "m"
           "c_m_raster_register" (self world_ab) absolute ["a@m"; "b@m"] "b@m"); evaluated.
Defined.

(** X17 on the example: the dataset holds [a]. *)
Lemma update_twice_witness :
  returns tt (fun w1 =>
    returns tt (fun w2 => stds_rows w2 = stds_rows w1 /\ self w2 = self w1)
      (update_from_registered_maps sqlite3 "raster" None w1))
  (update_from_registered_maps sqlite3 "raster" None world_a).
Proof.
  apply (update_twice sqlite3 "raster" None None world_a "c@m" "c" "m"
           "c_m_raster_register" (self world_a) absolute ["a@m"]); evaluated.
Defined.

(** X18 on the example: the object names a register, and no register goes by
    the name of the dataset. *)
Lemma update_register_missing_witness :
  raises DatabaseError (fun w' =>
    registers w' = registers world_renamed /\ map_rows w' = map_rows world_renamed /\
    stds_rows w' = stds_rows world_renamed /\ self w' = self world_renamed /\
    conns w' = conns world_renamed ++ [true])
  (update_from_registered_maps sqlite3 "raster" None world_renamed).
Proof.
  apply (update_register_missing sqlite3 "raster" None world_renamed "c@m" "c" "m"
           "old_register"); evaluated.
Defined.

(** X21 on the example: the dataset holds [a] and [b]. *)
Lemma update_frame_witness :
  returns tt (fun w' =>
    registers w' = registers world_ab /\ map_rows w' = map_rows world_ab /\
    (forall cid', cid' <> "c@m" -> stds_rows w' !! cid' = stds_rows world_ab !! cid') /\
    exists r', stds_rows w' !! "c@m" = Some r' /\
      s_id r' = s_id (self world_ab) /\ s_name r' = s_name (self world_ab) /\
      s_mapset r' = s_mapset (self world_ab) /\ s_ttype r' = s_ttype (self world_ab) /\
      s_map_register r' = s_map_register (self world_ab) /\
      s_number_of_maps r' =
        Some (length (filter (fun map => is_Some (map_rows world_ab !! map))
                        (remove_dups ["a@m"; "b@m"]))))
  (update_from_registered_maps sqlite3 "raster" None world_ab).
Proof.
  apply (update_frame sqlite3 "raster" None world_ab "c@m" "c" "m"
           "c_m_raster_register" (self world_ab) absolute ["a@m"; "b@m"]); evaluated.
Defined.
